(** * Error-report relay: rate limiter, message formatter, webhook dispatch

    A shallow embedding of
      - [app/core/rate_limiter.py]       (class [RateLimiter]),
      - [app/services/telegram_service.py] ([_escape], [_format_message],
        [send_error_notification]),
      - [app/routes/webhook.py]          ([receive_error], [test_notification]),
    followed by the properties established about them.

    Conventions.
      - A Python [str] is a list of Unicode code points ([list N]), so that
        [length] is Python's [len].
      - A wall-clock reading ([time.time()]) is a rational number; the
        arithmetic of the limiter ([now - W], [ts + W], [ts > start]) is the
        exact one.
      - A [defaultdict(list)] is a [gmap] together with the insertion that a
        read of a missing key performs. *)

From Stdlib Require Import ZArith QArith Lqa Lia List Bool Ascii String.
From Stdlib Require Import Qround Decimal DecimalString.
From stdpp Require Import gmap.

Abbreviation str := (list N).

(** An ASCII literal of the source, as code points. *)
Definition lit (s : string) : str :=
  List.map N_of_ascii (list_ascii_of_string s).
Arguments lit s%_string.

(* ================================================================== *)
(** * app/core/rate_limiter.py *)
(* ================================================================== *)

(** [ts > window_start] on timestamps. *)
Definition Qgtb (a b : Q) : bool := negb (Qle_bool a b).

Record RateLimiter := mkRateLimiter {
  max_requests : Z;
  window_seconds : Z;
  _requests : gmap str (list Q)
}.

(** [RateLimiter(max_requests, window_seconds)]. *)
Definition new_RateLimiter (n w : Z) : RateLimiter :=
  mkRateLimiter n w ∅.

Definition with_requests (self : RateLimiter) (m : gmap str (list Q))
  : RateLimiter :=
  mkRateLimiter (max_requests self) (window_seconds self) m.

(** [d[key]] on a [defaultdict(list)]: a missing key is created with []. *)
Definition getitem (key : str) (m : gmap str (list Q))
  : list Q * gmap str (list Q) :=
  match m !! key with
  | Some l => (l, m)
  | None => ([], <[key := []]> m)
  end.

(** [[ts for ts in l if ts > window_start]] *)
Definition purge (window_start : Q) (l : list Q) : list Q :=
  List.filter (fun ts => Qgtb ts window_start) l.

Definition is_allowed (now : Q) (key : str) (self : RateLimiter)
  : bool * RateLimiter :=
  let window_start := (now - inject_Z (window_seconds self))%Q in
  let '(l, m1) := getitem key (_requests self) in
  let m2 := <[key := purge window_start l]> m1 in
  let '(l2, m3) := getitem key m2 in
  if (max_requests self <=? Z.of_nat (length l2))%Z then
    (false, with_requests self m3)
  else
    let '(l3, m4) := getitem key m3 in
    (true, with_requests self (<[key := l3 ++ [now]]> m4)).

Definition remaining (now : Q) (key : str) (self : RateLimiter)
  : Z * RateLimiter :=
  let window_start := (now - inject_Z (window_seconds self))%Q in
  let '(l, m1) := getitem key (_requests self) in
  let m2 := <[key := purge window_start l]> m1 in
  let '(l2, m3) := getitem key m2 in
  (Z.max 0 (max_requests self - Z.of_nat (length l2)), with_requests self m3).

(** The sum [oldest + window_seconds] is exact here; the code adds floats,
    and the float sum is the float nearest to it, on either side. *)
Definition reset_time (key : str) (self : RateLimiter)
  : option Q * RateLimiter :=
  let '(l, m1) := getitem key (_requests self) in
  match l with
  | [] => (None, with_requests self m1)
  | _ :: _ =>
      let '(l2, m2) := getitem key m1 in
      match l2 with
      | oldest :: _ =>
          (Some (oldest + inject_Z (window_seconds self))%Q,
           with_requests self m2)
      | [] => (None, with_requests self m2)
      end
  end.

(** What a read of [self._requests[key]] would see. *)
Definition stored (key : str) (self : RateLimiter) : list Q :=
  default [] (_requests self !! key).

(** What one [is_allowed] call does to the list of its key: the answer
    and the list left behind. *)
Definition key_step (N W : Z) (now : Q) (l : list Q) : bool * list Q :=
  let l' := purge (now - inject_Z W) l in
  if (N <=? Z.of_nat (length l'))%Z then (false, l') else (true, l' ++ [now]).

(** Calls a client of the class can make, with the clock reading each one
    takes. *)
Inductive Call :=
| IsAllowed (now : Q) (key : str)
| Remaining (now : Q) (key : str)
| ResetTime (key : str).

Definition call (c : Call) (self : RateLimiter) : RateLimiter :=
  match c with
  | IsAllowed now key => snd (is_allowed now key self)
  | Remaining now key => snd (remaining now key self)
  | ResetTime key => snd (reset_time key self)
  end.

Definition calls (cs : list Call) (self : RateLimiter) : RateLimiter :=
  fold_left (fun s c => call c s) cs self.

(** No stored list is longer than the capacity. *)
Definition capped (self : RateLimiter) : Prop :=
  forall (k : str) (l : list Q),
    _requests self !! k = Some l ->
    (Z.of_nat (length l) <= Z.max 0 (max_requests self))%Z.

(** Successive [is_allowed] calls on one key: the answers, the limiter
    after the last call. *)
Fixpoint is_allowed_seq (key : str) (times : list Q) (self : RateLimiter)
  : list bool * RateLimiter :=
  match times with
  | [] => ([], self)
  | now :: rest =>
      let '(b, self1) := is_allowed now key self in
      let '(bs, self2) := is_allowed_seq key rest self1 in
      (b :: bs, self2)
  end.

(** The call times that were answered [True]. *)
Fixpoint allowed_times (times : list Q) (answers : list bool) : list Q :=
  match times, answers with
  | t :: ts, true :: bs => t :: allowed_times ts bs
  | _ :: ts, false :: bs => allowed_times ts bs
  | _, _ => []
  end.

(** Membership of the trailing window that ends at [T]:
    [T - W < t <= T], the window [purge] keeps at time [T]. *)
Definition in_window (W : Z) (T t : Q) : bool :=
  Qgtb t (T - inject_Z W) && Qle_bool t T.

Definition count_in_window (W : Z) (T : Q) (l : list Q) : nat :=
  length (List.filter (in_window W T) l).

(** Call times never run backwards. *)
Fixpoint nondecreasing (l : list Q) : Prop :=
  match l with
  | [] => True
  | a :: rest =>
      match rest with
      | [] => True
      | b :: _ => (a <= b)%Q
      end /\ nondecreasing rest
  end.


(* ================================================================== *)
(** * Python built-ins used by the formatter *)
(* ================================================================== *)

(** ["\n"] *)
Definition nl : str := [10%N].

(** [str(n)] / [f"{n}"] for an [int]. *)
Definition str_of_Z (z : Z) : str := lit (NilZero.string_of_int (Z.to_int z)).

(** [sep.join(parts)] *)
Fixpoint join (sep : str) (parts : list str) : str :=
  match parts with
  | [] => []
  | x :: rest =>
      match rest with
      | [] => x
      | _ :: _ => x ++ sep ++ join sep rest
      end
  end.

(** [s[:n]] for any integer [n]: a negative bound counts from the end. *)
Definition slice_to (n : Z) (s : str) : str :=
  if (n <? 0)%Z then firstn (Z.to_nat (Z.of_nat (length s) + n)) s
  else firstn (Z.to_nat n) s.

(** [text.replace(c, by)] for a one-character pattern. *)
Definition replace1 (c : N) (by_ : str) (text : str) : str :=
  flat_map (fun x => if (x =? c)%N then by_ else [x]) text.

(** Truthiness of an [Optional[str]]: present and not empty. *)
Definition truthy (o : option str) : bool :=
  match o with
  | Some (_ :: _) => true
  | _ => false
  end.

(** [if field: lines.append(f(field))] *)
Definition when_str (o : option str) (f : str -> str) : list str :=
  match o with
  | Some (c :: s) => [f (c :: s)]
  | _ => []
  end.

(** [if field is not None: lines.append(f(field))] *)
Definition when_some {A} (o : option A) (f : A -> str) : list str :=
  match o with
  | Some a => [f a]
  | None => []
  end.

(** [str.zfill(width)] on the digits of a natural number. *)
Definition zfill (width : nat) (n : nat) : str :=
  let digits := str_of_Z (Z.of_nat n) in
  repeat 48%N (width - length digits) ++ digits.

(** Nearest integer, ties to the even one (the rounding of [%.1f]). *)
Definition round_half_even (q : Q) : Z :=
  let fl := Qfloor q in
  match ((q - inject_Z fl) ?= 1 # 2)%Q with
  | Lt => fl
  | Gt => (fl + 1)%Z
  | Eq => if Z.even fl then fl else (fl + 1)%Z
  end.

(** [f"{x:.1f}"] for a finite float [x], given as the rational it is; the
    float [-0.0], which has no rational of its own, is outside this model. *)
Definition format_1f (x : Q) : str :=
  let n := Z.abs (round_half_even (x * 10)) in
  (if Qle_bool 0 x then [] else lit "-")
    ++ str_of_Z (n / 10) ++ lit "." ++ str_of_Z (n mod 10).

(** A [datetime], as far as [strftime] reads it. *)
Record datetime := mkDatetime {
  year : nat; month : nat; day : nat;
  hour : nat; minute : nat; second : nat
}.

(** [ts.strftime("%Y-%m-%d %H:%M:%S UTC")], for the years 1000 to 9999;
    how a shorter year is printed depends on the platform, and is padded
    here. *)
Definition strftime (ts : datetime) : str :=
  zfill 4 (year ts) ++ lit "-" ++ zfill 2 (month ts) ++ lit "-"
    ++ zfill 2 (day ts) ++ lit " " ++ zfill 2 (hour ts) ++ lit ":"
    ++ zfill 2 (minute ts) ++ lit ":" ++ zfill 2 (second ts) ++ lit " UTC".

(** A JSON value stored in [metadata] ([dict[str, Any]]).  A float, a list
    or an object is carried with the text [str()] gives for it. *)
Inductive Any :=
| AStr (s : str)
| AInt (z : Z)
| ABool (b : bool)
| ANone
| AOther (text : str).

Definition py_str (v : Any) : str :=
  match v with
  | AStr s => s
  | AInt z => str_of_Z z
  | ABool true => lit "True"
  | ABool false => lit "False"
  | ANone => lit "None"
  | AOther text => text
  end.

(* ================================================================== *)
(** * app/models/error_payload.py *)
(* ================================================================== *)

Inductive ErrorSeverity := CRITICAL | ERROR | WARNING | INFO.

Definition ErrorSeverity_eqb (a b : ErrorSeverity) : bool :=
  match a, b with
  | CRITICAL, CRITICAL | ERROR, ERROR | WARNING, WARNING | INFO, INFO => true
  | _, _ => false
  end.

Record DeviceInfo := mkDeviceInfo {
  hostname : option str;
  os : option str;
  os_version : option str;
  device_ip_address : option str;
  architecture : option str;
  cpu_usage : option Q;
  memory_usage : option Q;
  disk_usage : option Q
}.

Record UserInfo := mkUserInfo {
  user_id : option str;
  username : option str;
  email : option str;
  session_id : option str;
  user_ip_address : option str
}.

Record ErrorContext := mkErrorContext {
  request_url : option str;
  request_method : option str;
  request_headers : option (list (str * str));
  request_body : option str;
  response_status : option Z;
  response_body : option str;
  query_params : option (list (str * str))
}.

Record ErrorPayload := mkErrorPayload {
  error_message : str;
  severity : ErrorSeverity;
  error_type : option str;
  error_code : option str;
  stacktrace : option str;
  file_name : option str;
  line_number : option Z;
  function_name : option str;
  app_name : option str;
  app_version : option str;
  environment : option str;
  service_name : option str;
  component : option str;
  context : option ErrorContext;
  user : option UserInfo;
  device : option DeviceInfo;
  tags : option (list (str * str));
  metadata : option (list (str * Any));
  timestamp : datetime;
  fingerprint : option str
}.

(** What the request validation guarantees of a payload it lets through
    (the [Field] constraints of the model). *)
Definition valid_payload (p : ErrorPayload) : bool :=
  (1 <=? Z.of_nat (length (error_message p)))%Z
  && (Z.of_nat (length (error_message p)) <=? 4000)%Z
  && match stacktrace p with
     | Some s => (Z.of_nat (length s) <=? 10000)%Z
     | None => true
     end
  && match line_number p with
     | Some n => (0 <=? n)%Z
     | None => true
     end.

(* ================================================================== *)
(** * app/core/config.py *)
(* ================================================================== *)

Record Settings := mkSettings {
  TELEGRAM_BOT_TOKEN : str;
  TELEGRAM_CHAT_ID : str;
  RATE_LIMIT_MAX_ERRORS : Z;
  RATE_LIMIT_WINDOW_SECONDS : Z;
  MAX_STACKTRACE_LENGTH : Z;
  MAX_METADATA_LENGTH : Z
}.

(** The settings with every default of the class left in place. *)
Definition default_Settings (token chat : str) : Settings :=
  mkSettings token chat 30 60 2000 1000.

(* ================================================================== *)
(** * app/services/telegram_service.py: the formatter *)
(* ================================================================== *)

(** [SEVERITY_EMOJI] and [SEVERITY_LABEL], and [dict.get(key, default)]. *)
Definition SEVERITY_EMOJI : list (ErrorSeverity * str) :=
  [(CRITICAL, [128308%N]); (ERROR, [128992%N]);
   (WARNING, [128993%N]); (INFO, [128309%N])].

Definition SEVERITY_LABEL : list (ErrorSeverity * str) :=
  [(CRITICAL, lit "CRITICAL"); (ERROR, lit "ERROR");
   (WARNING, lit "WARNING"); (INFO, lit "INFO")].

Fixpoint dict_get (d : list (ErrorSeverity * str)) (k : ErrorSeverity)
  (dflt : str) : str :=
  match d with
  | [] => dflt
  | (k', v) :: rest => if ErrorSeverity_eqb k' k then v else dict_get rest k dflt
  end.

Definition _escape (text : str) : str :=
  replace1 62 (lit "&gt;")
    (replace1 60 (lit "&lt;")
       (replace1 38 (lit "&amp;") text)).

Record TelegramService := mkTelegramService {
  bot_token : str;
  chat_id : str;
  max_stacktrace : Z;
  max_metadata : Z
}.

(** [TelegramService()] *)
Definition new_TelegramService (settings : Settings) : TelegramService :=
  mkTelegramService (TELEGRAM_BOT_TOKEN settings) (TELEGRAM_CHAT_ID settings)
    (MAX_STACKTRACE_LENGTH settings) (MAX_METADATA_LENGTH settings).

(** The lines each block of [_format_message] appends to [parts]. *)

Definition header_line (payload : ErrorPayload) (error_id : str) : str :=
  let emoji := dict_get SEVERITY_EMOJI (severity payload) [9898%N] in
  let label := dict_get SEVERITY_LABEL (severity payload) (lit "UNKNOWN") in
  emoji ++ lit " <b>" ++ label ++ lit "</b> | <code>" ++ error_id
    ++ lit "</code>".

Definition message_line (payload : ErrorPayload) : str :=
  lit "<b>Message:</b> " ++ _escape (error_message payload).

Definition type_code_lines (payload : ErrorPayload) : list str :=
  when_str (error_type payload)
    (fun s => lit "<b>Type:</b> <code>" ++ _escape s ++ lit "</code>")
  ++ when_str (error_code payload)
    (fun s => lit "<b>Code:</b> <code>" ++ _escape s ++ lit "</code>").

Definition location_parts (payload : ErrorPayload) : list str :=
  when_str (file_name payload) (fun s => s)
  ++ when_some (line_number payload) (fun n => lit "line " ++ str_of_Z n)
  ++ when_str (function_name payload) (fun s => lit "in " ++ s ++ lit "()").

Definition location_lines (payload : ErrorPayload) : list str :=
  match location_parts payload with
  | [] => []
  | ps =>
      [lit "<b>Location:</b> <code>" ++ _escape (join (lit " | ") ps)
         ++ lit "</code>"]
  end.

(** [if lines: parts.append(title); parts.extend(lines); parts.append("")] *)
Definition titled_block (title : str) (lines : list str) : list str :=
  match lines with
  | [] => []
  | _ :: _ => [title] ++ lines ++ [[]]
  end.

Definition app_lines (payload : ErrorPayload) : list str :=
  when_str (app_name payload) (fun s => lit "  App: " ++ _escape s)
  ++ when_str (app_version payload) (fun s => lit "  Version: " ++ _escape s)
  ++ when_str (environment payload) (fun s => lit "  Env: " ++ _escape s)
  ++ when_str (service_name payload) (fun s => lit "  Service: " ++ _escape s)
  ++ when_str (component payload) (fun s => lit "  Component: " ++ _escape s).

Definition ctx_lines (ctx : ErrorContext) : list str :=
  (if truthy (request_method ctx) && truthy (request_url ctx) then
     [lit "  " ++ _escape (default [] (request_method ctx)) ++ lit " "
        ++ _escape (default [] (request_url ctx))]
   else
     when_str (request_url ctx) (fun s => lit "  URL: " ++ _escape s))
  ++ when_some (response_status ctx) (fun n => lit "  Status: " ++ str_of_Z n)
  ++ match query_params ctx with
     | Some ((_ :: _) as items) =>
         let params_str :=
           join (lit ", ")
             (List.map (fun kv => fst kv ++ lit "=" ++ snd kv) items) in
         [lit "  Params: " ++ _escape params_str]
     | _ => []
     end.

Definition user_lines (u : UserInfo) : list str :=
  when_str (user_id u)
    (fun s => lit "  ID: <code>" ++ _escape s ++ lit "</code>")
  ++ when_str (username u) (fun s => lit "  Username: " ++ _escape s)
  ++ when_str (email u) (fun s => lit "  Email: " ++ _escape s)
  ++ when_str (session_id u)
    (fun s => lit "  Session: <code>" ++ _escape s ++ lit "</code>")
  ++ when_str (user_ip_address u)
    (fun s => lit "  IP: <code>" ++ _escape s ++ lit "</code>").

Definition resource_parts (d : DeviceInfo) : list str :=
  when_some (cpu_usage d) (fun x => lit "CPU " ++ format_1f x ++ lit "%")
  ++ when_some (memory_usage d) (fun x => lit "MEM " ++ format_1f x ++ lit "%")
  ++ when_some (disk_usage d) (fun x => lit "DISK " ++ format_1f x ++ lit "%").

Definition dev_lines (d : DeviceInfo) : list str :=
  when_str (hostname d)
    (fun s => lit "  Host: <code>" ++ _escape s ++ lit "</code>")
  ++ when_str (os d)
    (fun os_str =>
       let os_str :=
         if truthy (os_version d)
         then os_str ++ lit " " ++ default [] (os_version d)
         else os_str in
       lit "  OS: " ++ _escape os_str)
  ++ when_str (device_ip_address d)
    (fun s => lit "  IP: <code>" ++ _escape s ++ lit "</code>")
  ++ when_str (architecture d) (fun s => lit "  Arch: " ++ _escape s)
  ++ match resource_parts d with
     | [] => []
     | rs => [lit "  Resources: " ++ join (lit " | ") rs]
     end.

Definition tags_lines (payload : ErrorPayload) : list str :=
  match tags payload with
  | Some ((_ :: _) as items) =>
      let tags_str :=
        join (lit " ")
          (List.map
             (fun kv => lit "<code>#" ++ _escape (fst kv) ++ lit ":"
                          ++ _escape (snd kv) ++ lit "</code>")
             items) in
      [lit "<b>Tags:</b> " ++ tags_str; []]
  | _ => []
  end.

(** [meta_str] before the ceiling is applied. *)
Definition meta_str_full (items : list (str * Any)) : str :=
  join (nl)
    (List.map
       (fun kv => lit "  " ++ _escape (fst kv) ++ lit ": "
                    ++ _escape (py_str (snd kv)))
       (firstn 20 items)).

Definition meta_str (self : TelegramService) (items : list (str * Any)) : str :=
  let meta_str := meta_str_full items in
  if (max_metadata self <? Z.of_nat (length meta_str))%Z then
    slice_to (max_metadata self) meta_str
      ++ nl ++ lit "  ... (truncated)"
  else meta_str.

Definition metadata_lines (self : TelegramService) (payload : ErrorPayload)
  : list str :=
  match metadata payload with
  | Some ((_ :: _) as items) =>
      [lit "<b>Metadata</b>";
       lit "<pre>" ++ meta_str self items ++ lit "</pre>";
       []]
  | _ => []
  end.

Definition trace_cut (self : TelegramService) (trace : str) : str :=
  if (max_stacktrace self <? Z.of_nat (length trace))%Z then
    slice_to (max_stacktrace self) trace
      ++ nl ++ lit "... (truncated)"
  else trace.

Definition stacktrace_lines (self : TelegramService) (payload : ErrorPayload)
  : list str :=
  match stacktrace payload with
  | Some ((_ :: _) as trace) =>
      [lit "<b>Stacktrace</b>";
       lit "<pre>" ++ _escape (trace_cut self trace) ++ lit "</pre>";
       []]
  | _ => []
  end.

Definition timestamp_line (payload : ErrorPayload) : str :=
  lit "<i>" ++ strftime (timestamp payload) ++ lit "</i>".

Definition fingerprint_lines (payload : ErrorPayload) : list str :=
  when_str (fingerprint payload)
    (fun s => lit "Fingerprint: <code>" ++ _escape s ++ lit "</code>").

(** [parts] when the function reaches ["\n".join(parts)]. *)
Definition message_parts (self : TelegramService) (payload : ErrorPayload)
  (error_id : str) : list str :=
  [header_line payload error_id; []]
  ++ [message_line payload]
  ++ type_code_lines payload
  ++ location_lines payload
  ++ [[]]
  ++ titled_block (lit "<b>Application</b>") (app_lines payload)
  ++ match context payload with
     | Some ctx => titled_block (lit "<b>Request</b>") (ctx_lines ctx)
     | None => []
     end
  ++ match user payload with
     | Some u => titled_block (lit "<b>User</b>") (user_lines u)
     | None => []
     end
  ++ match device payload with
     | Some d => titled_block (lit "<b>Server</b>") (dev_lines d)
     | None => []
     end
  ++ tags_lines payload
  ++ metadata_lines self payload
  ++ stacktrace_lines self payload
  ++ [timestamp_line payload]
  ++ fingerprint_lines payload.

(** ["\n".join(parts)] *)
Definition assembled (self : TelegramService) (payload : ErrorPayload)
  (error_id : str) : str :=
  join (nl) (message_parts self payload error_id).

(** The final ceiling: [message[:4080] + "\n\n... (truncated)"]. *)
Definition final_cut (message : str) : str :=
  if (4096 <? Z.of_nat (length message))%Z then
    slice_to 4080 message
      ++ nl ++ nl ++ lit "... (truncated)"
  else message.

Definition _format_message (self : TelegramService) (payload : ErrorPayload)
  (error_id : str) : str :=
  final_cut (assembled self payload error_id).

(* ================================================================== *)
(** * Effects: clock, id source, HTTP client, the module-level limiter *)
(* ================================================================== *)

(** What [response.json()] followed by [data.get("ok")] yields: an
    exception, or the truth value of the [ok] member. *)
Inductive Body :=
| NotJson
| Json (ok : bool).

(** What [client.post(.../sendMessage)] does. *)
Inductive PostOutcome :=
| TimeoutException
| OtherException
| Response (status_code : Z) (body : Body).

(** The collaborators of a request: the clock ([time.time()] and
    [datetime.utcnow()]) by number of readings taken so far,
    [secrets.token_hex(12)] by number of ids drawn so far, the Telegram
    endpoint by number of posts made so far and text posted, and the
    process settings. *)
Record Env := mkEnv {
  time_time : nat -> Q;
  utcnow : nat -> datetime;
  token_hex : nat -> str;
  httpx_post : nat -> str -> PostOutcome;
  get_settings : Settings
}.

(** The mutable state of the process: the module-level [rate_limiter] of
    webhook.py, and counters and a log for the collaborators. *)
Record World := mkWorld {
  rate_limiter : RateLimiter;
  clock_reads : nat;
  ids_drawn : nat;
  posted : list str
}.

Inductive Detail :=
| RateLimitDetail (message : str) (remaining_ : Z)
    (retry_after_seconds : option Q)
| TextDetail (message : str).

Inductive HTTPException :=
| mkHTTPException (status : Z) (detail : Detail).

(** The response model, without the [timestamp] it is stamped with. *)
Record WebhookResponse := mkWebhookResponse {
  success : bool;
  message : str;
  error_id : option str
}.

(** State and exception monad of the request handlers. *)
Definition M (A : Type) : Type := World -> (HTTPException + A) * World.

Definition ret {A} (a : A) : M A := fun w => (inr a, w).

Definition bind {A B} (c : M A) (k : A -> M B) : M B :=
  fun w =>
    match c w with
    | (inl e, w1) => (inl e, w1)
    | (inr a, w1) => k a w1
    end.

Definition raise {A} (e : HTTPException) : M A := fun w => (inl e, w).

Notation "'let*' x ':=' c 'in' k" := (bind c (fun x => k))
  (at level 10, x name, c at level 100, k at level 200).

Definition read_clock {A} (f : nat -> A) : M A :=
  fun w =>
    (inr (f (clock_reads w)),
     mkWorld (rate_limiter w) (S (clock_reads w)) (ids_drawn w) (posted w)).

(** A method of the module-level limiter that reads [time.time()]. *)
Definition on_limiter {A} (env : Env)
  (method : Q -> RateLimiter -> A * RateLimiter) : M A :=
  let* now := read_clock (time_time env) in
  fun w =>
    let '(a, rl) := method now (rate_limiter w) in
    (inr a, mkWorld rl (clock_reads w) (ids_drawn w) (posted w)).

Definition limiter_reset_time (key : str) : M (option Q) :=
  fun w =>
    let '(a, rl) := reset_time key (rate_limiter w) in
    (inr a, mkWorld rl (clock_reads w) (ids_drawn w) (posted w)).

(** app/core/security.py: [generate_error_id]. *)
Definition generate_error_id (env : Env) : M str :=
  fun w =>
    (inr (token_hex env (ids_drawn w)),
     mkWorld (rate_limiter w) (clock_reads w) (S (ids_drawn w)) (posted w)).

(** [await client.post(f"{api_url}/sendMessage", json={..."text": text...})] *)
Definition post_sendMessage (env : Env) (text : str) : M PostOutcome :=
  fun w =>
    (inr (httpx_post env (length (posted w)) text),
     mkWorld (rate_limiter w) (clock_reads w) (ids_drawn w)
       (posted w ++ [text])).

(* ================================================================== *)
(** * app/services/telegram_service.py: delivery *)
(* ================================================================== *)

Definition send_error_notification (env : Env) (self : TelegramService)
  (payload : ErrorPayload) (error_id : str) : M bool :=
  let message := _format_message self payload error_id in
  let* r := post_sendMessage env message in
  match r with
  | Response status_code body =>
      if negb (status_code =? 200)%Z then ret false
      else
        match body with
        | Json ok => if negb ok then ret false else ret true
        | NotJson => ret false
        end
  | TimeoutException => ret false
  | OtherException => ret false
  end.

(* ================================================================== *)
(** * app/routes/webhook.py *)
(* ================================================================== *)

(** [payload.fingerprint or "global"] *)
Definition rate_key (payload : ErrorPayload) : str :=
  match fingerprint payload with
  | Some (c :: s) => c :: s
  | _ => lit "global"
  end.

Definition receive_error (env : Env) (payload : ErrorPayload)
  : M WebhookResponse :=
  let rate_key := rate_key payload in
  let* allowed := on_limiter env (fun now => is_allowed now rate_key) in
  if negb allowed then
    let* remaining := on_limiter env (fun now => remaining now rate_key) in
    let* reset := limiter_reset_time rate_key in
    raise (mkHTTPException 429
             (RateLimitDetail
                (lit "Rate limit exceeded. Too many error reports.")
                remaining reset))
  else
    let* error_id := generate_error_id env in
    let telegram := new_TelegramService (get_settings env) in
    let* sent := send_error_notification env telegram payload error_id in
    if negb sent then
      raise (mkHTTPException 502
               (TextDetail
                  (lit "Failed to deliver notification to Telegram. Check bot configuration.")))
    else
      ret (mkWebhookResponse true
             (lit "Error notification delivered successfully")
             (Some error_id)).

(** The record [test_notification] builds, given [datetime.utcnow()]. *)
Definition test_payload (now : datetime) : ErrorPayload :=
  mkErrorPayload
    (lit "This is a test notification from Jahiz Error Tracker")
    INFO
    (Some (lit "TestNotification"))
    None None None None None
    (Some (lit "Jahiz Error Tracker"))
    None
    (Some (lit "test"))
    None None None None None None None
    now
    None.

Definition test_notification (env : Env) : M WebhookResponse :=
  let* now := read_clock (utcnow env) in
  let test_payload := test_payload now in
  let* error_id := generate_error_id env in
  let telegram := new_TelegramService (get_settings env) in
  let* sent := send_error_notification env telegram test_payload error_id in
  if negb sent then
    raise (mkHTTPException 502
             (TextDetail
                (lit "Failed to send test notification. Verify TELEGRAM_BOT_TOKEN and TELEGRAM_CHAT_ID.")))
  else
    ret (mkWebhookResponse true
           (lit "Test notification sent successfully! Check your Telegram.")
           (Some error_id)).

(** The three outcomes of a dispatch, read off the handler's result:
    a response, a 429 with the quota data, a 502. *)
Inductive DispatchOutcome :=
| Delivered (errorId : str)
| RateLimited (remaining_ : Z) (resetAt : option Q)
| DeliveryFailed (reason : str).

Definition outcome (r : HTTPException + WebhookResponse) : DispatchOutcome :=
  match r with
  | inr resp => Delivered (default [] (error_id resp))
  | inl (mkHTTPException _ (RateLimitDetail _ rem reset)) =>
      RateLimited rem reset
  | inl (mkHTTPException _ (TextDetail reason)) => DeliveryFailed reason
  end.

(* ================================================================== *)
(** * Vocabulary of the properties *)
(* ================================================================== *)

(** [s.startswith(p)] and [p in s]. *)
Fixpoint prefixb (p s : str) : bool :=
  match p, s with
  | [], _ => true
  | a :: p', b :: s' => (a =? b)%N && prefixb p' s'
  | _ :: _, [] => false
  end.

Fixpoint contains (p s : str) : bool :=
  prefixb p s
  || match s with
     | [] => false
     | _ :: t => contains p t
     end.

(** The footer of a message: the timestamp line and the fingerprint line. *)
Definition footer (payload : ErrorPayload) : str :=
  join nl (timestamp_line payload :: fingerprint_lines payload).

(** The metadata text is within its ceiling: the cut does not apply. *)
Definition metadata_uncut (self : TelegramService) (payload : ErrorPayload)
  : Prop :=
  match metadata payload with
  | Some items =>
      (Z.of_nat (length (meta_str_full items)) <= max_metadata self)%Z
  | None => True
  end.

(** What [_escape] does to one character. *)
Definition escape_char (c : N) : str :=
  if (c =? 38)%N then lit "&amp;"
  else if (c =? 60)%N then lit "&lt;"
  else if (c =? 62)%N then lit "&gt;"
  else [c].

(** A text free of [&], [<] and [>]. *)
Definition plainb (s : str) : bool :=
  forallb (fun c => negb ((c =? 38) || (c =? 60) || (c =? 62))%N) s.

(** The tags the formatter writes, after their [<], and the escaped forms,
    after their [&]. *)
Definition TAGS : list str :=
  [lit "b>"; lit "/b>"; lit "code>"; lit "/code>";
   lit "pre>"; lit "/pre>"; lit "i>"; lit "/i>"].

Definition ENTITIES : list str := [lit "amp;"; lit "lt;"; lit "gt;"].

Definition starts_with_any (ps : list str) (s : str) : bool :=
  existsb (fun p => prefixb p s) ps.

(** A text in which every [<] opens one of the formatter's tags, every [>]
    closes one, and every [&] begins one of the three escaped forms: the
    markup characters of the inserted fields show up escaped only, those of
    the structure as they are.  [in_tag] tells that a tag is open. *)
Fixpoint scan (in_tag : bool) (s : str) : bool :=
  match s with
  | [] => negb in_tag
  | c :: t =>
      if in_tag then
        if (c =? 62)%N then scan false t
        else if ((c =? 60) || (c =? 38))%N then false
        else scan true t
      else if (c =? 60)%N then starts_with_any TAGS t && scan true t
      else if (c =? 38)%N then starts_with_any ENTITIES t && scan false t
      else if (c =? 62)%N then false
      else scan false t
  end.

Definition markup_ok (s : str) : bool := scan false s.

(** Sample inputs. *)

Definition sample_datetime : datetime := mkDatetime 2024 1 2 3 4 5.

Definition sample_id : str := lit "0123456789abcdef01234567".

Definition sample_settings : Settings :=
  default_Settings (lit "token") (lit "chat").

(** A record with a message, a stack trace and a fingerprint only. *)
Definition sample_payload (msg : str) (trace fp : option str) : ErrorPayload :=
  mkErrorPayload msg ERROR None None trace None None None None None None None
    None None None None None None sample_datetime fp.

(** A report of 4000 characters with a trace of 100 and a fingerprint. *)
Definition long_payload : ErrorPayload :=
  sample_payload (repeat 97%N 4000) (Some (repeat 98%N 100))
    (Some (lit "abc")).

(** A report whose message is 1000 ampersands. *)
Definition ampersand_payload : ErrorPayload :=
  sample_payload (repeat 38%N 1000) None None.

(** A report whose metadata is one entry of 300 [<]. *)
Definition meta_payload : ErrorPayload :=
  mkErrorPayload (lit "boom") ERROR None None None None None None None None
    None None None None None None None
    (Some [(lit "k", AStr (repeat 60%N 300))]) sample_datetime None.

(** Collaborators with a constant clock, a constant id and a constant
    reply of the endpoint. *)
Definition sample_env (now : Q) (reply : PostOutcome) : Env :=
  mkEnv (fun _ => now) (fun _ => sample_datetime) (fun _ => sample_id)
    (fun _ _ => reply) sample_settings.

(** A process whose limiter has capacity 1 and has let one report of the
    key ["global"] through at time 0. *)
Definition exhausted_world : World :=
  mkWorld (snd (is_allowed 0 (lit "global") (new_RateLimiter 1 60))) 0 0 [].

(** A process that has just started, with the default limits. *)
Definition fresh_world : World := mkWorld (new_RateLimiter 30 60) 0 0 [].

(** The one reply of the endpoint that [send_error_notification] counts as
    sent: status 200 with a true [ok]. *)
Definition post_ok (r : PostOutcome) : bool :=
  match r with
  | Response status_code (Json ok) => (status_code =? 200)%Z && ok
  | _ => false
  end.

(** The key a call is made on. *)
Definition call_key (c : Call) : str :=
  match c with
  | IsAllowed _ key | Remaining _ key | ResetTime key => key
  end.

(** The clock reading a call takes, if it takes one, and the readings of
    a sequence of calls. *)
Definition call_time (c : Call) : list Q :=
  match c with
  | IsAllowed now _ | Remaining now _ => [now]
  | ResetTime _ => []
  end.

Definition call_times (cs : list Call) : list Q := flat_map call_time cs.

(** Every stored list is in the order of the clock and holds nothing later
    than [τ]. *)
Definition timeline (τ : Q) (self : RateLimiter) : Prop :=
  forall k : str,
    nondecreasing (stored k self)
    /\ Forall (fun ts => (ts <= τ)%Q) (stored k self).

(** Reading the three escaped forms back: [&amp;], [&lt;], [&gt;] become
    [&], [<], [>], every other character stays.  [skip] counts the
    characters of an escaped form still to pass over. *)
Fixpoint unescape_from (skip : nat) (s : str) : str :=
  match s with
  | [] => []
  | c :: t =>
      match skip with
      | S k => unescape_from k t
      | O =>
          if (c =? 38)%N then
            if prefixb (lit "amp;") t then 38%N :: unescape_from 4 t
            else if prefixb (lit "lt;") t then 60%N :: unescape_from 3 t
            else if prefixb (lit "gt;") t then 62%N :: unescape_from 3 t
            else c :: unescape_from 0 t
          else c :: unescape_from 0 t
      end
  end.

Definition unescape (s : str) : str := unescape_from 0 s.

(** The record with its [metadata] replaced. *)
Definition set_metadata (p : ErrorPayload) (m : option (list (str * Any)))
  : ErrorPayload :=
  mkErrorPayload (error_message p) (severity p) (error_type p) (error_code p)
    (stacktrace p) (file_name p) (line_number p) (function_name p)
    (app_name p) (app_version p) (environment p) (service_name p)
    (component p) (context p) (user p) (device p) (tags p) m (timestamp p)
    (fingerprint p).

(** An empty string or an empty dict read as a missing one. *)
Definition blank {A} (o : option (list A)) : option (list A) :=
  match o with
  | Some [] => None
  | _ => o
  end.

Definition blank_context (c : ErrorContext) : ErrorContext :=
  mkErrorContext (blank (request_url c)) (blank (request_method c))
    (request_headers c) (request_body c) (response_status c)
    (response_body c) (blank (query_params c)).

Definition blank_user (u : UserInfo) : UserInfo :=
  mkUserInfo (blank (user_id u)) (blank (username u)) (blank (email u))
    (blank (session_id u)) (blank (user_ip_address u)).

Definition blank_device (d : DeviceInfo) : DeviceInfo :=
  mkDeviceInfo (blank (hostname d)) (blank (os d)) (blank (os_version d))
    (blank (device_ip_address d)) (blank (architecture d))
    (cpu_usage d) (memory_usage d) (disk_usage d).

(** The record with every empty optional text, and every empty [tags],
    [metadata] and [query_params], taken out. *)
Definition blank_payload (p : ErrorPayload) : ErrorPayload :=
  mkErrorPayload (error_message p) (severity p)
    (blank (error_type p)) (blank (error_code p)) (blank (stacktrace p))
    (blank (file_name p)) (line_number p) (blank (function_name p))
    (blank (app_name p)) (blank (app_version p)) (blank (environment p))
    (blank (service_name p)) (blank (component p))
    (option_map blank_context (context p))
    (option_map blank_user (user p))
    (option_map blank_device (device p))
    (blank (tags p)) (blank (metadata p)) (timestamp p)
    (blank (fingerprint p)).

(** A record with the required fields only. *)
Definition required_only (msg : str) (sev : ErrorSeverity) (ts : datetime)
  : ErrorPayload :=
  mkErrorPayload msg sev None None None None None None None None None None
    None None None None None None ts None.

(* ================================================================== *)
(** * app/core/security.py *)
(* ================================================================== *)

(** What a dependency or a handler can end in besides a value: an
    [HTTPException], or a [TypeError] that nothing catches. *)
Inductive Raised :=
| RaisedHTTP (e : HTTPException)
| RaisedTypeError.

Definition is_ascii (s : str) : bool := forallb (fun c => (c <? 128)%N) s.

(** [hmac.compare_digest(a, b)] on two [str]: a [TypeError] ([None]) when
    either holds a character outside ASCII, their equality otherwise. *)
Definition compare_digest (a b : str) : option bool :=
  if is_ascii a && is_ascii b then Some (bool_decide (a = b)) else None.

(** [verify_webhook_secret], given the [WEBHOOK_SECRET] of the settings
    and the value of the [X-Webhook-Secret] header, if any. *)
Definition verify_webhook_secret (WEBHOOK_SECRET : str)
  (api_key : option str) : Raised + str :=
  match api_key with
  | Some (c :: s) =>
      match compare_digest (c :: s) WEBHOOK_SECRET with
      | None => inl RaisedTypeError
      | Some false =>
          inl (RaisedHTTP
                 (mkHTTPException 403 (TextDetail (lit "Invalid webhook secret"))))
      | Some true => inr (c :: s)
      end
  | _ =>
      inl (RaisedHTTP
             (mkHTTPException 401
                (TextDetail
                   (lit "Missing webhook secret in X-Webhook-Secret header"))))
  end.

(** A handler behind [Depends(verify_webhook_secret)]: the handler runs
    only when the dependency returns. *)
Definition depends_on_secret {A} (WEBHOOK_SECRET : str)
  (api_key : option str) (handler : M A) : World -> (Raised + A) * World :=
  fun w =>
    match verify_webhook_secret WEBHOOK_SECRET api_key with
    | inl r => (inl r, w)
    | inr _ =>
        match handler w with
        | (inl e, w') => (inl (RaisedHTTP e), w')
        | (inr a, w') => (inr a, w')
        end
    end.

(** The routes [POST /webhook/error] and [POST /webhook/test]. *)
Definition route_error (env : Env) (WEBHOOK_SECRET : str)
  (api_key : option str) (payload : ErrorPayload) :=
  depends_on_secret WEBHOOK_SECRET api_key (receive_error env payload).

Definition route_test (env : Env) (WEBHOOK_SECRET : str)
  (api_key : option str) :=
  depends_on_secret WEBHOOK_SECRET api_key (test_notification env).

(* ================================================================== *)
(** * JSON values, [verify_bot] and app/routes/health.py *)
(* ================================================================== *)

(** A decoded JSON value; an object keeps its members in order. *)
#[local] Set Warnings "-register-all".
Inductive JsonValue :=
| JNull
| JBool (b : bool)
| JNum (q : Q)
| JStr (s : str)
| JList (l : list JsonValue)
| JDict (d : list (str * JsonValue)).

(** Truth value of a Python value decoded from JSON. *)
Definition json_truthy (v : JsonValue) : bool :=
  match v with
  | JNull => false
  | JBool b => b
  | JNum q => negb (Qeq_bool q 0)
  | JStr s => match s with [] => false | _ :: _ => true end
  | JList l => match l with [] => false | _ :: _ => true end
  | JDict d => match d with [] => false | _ :: _ => true end
  end.

(** [d.get(key)]: a missing key and a [null] member both give [None]. *)
Fixpoint dict_lookup (key : str) (d : list (str * JsonValue)) : option JsonValue :=
  match d with
  | [] => None
  | (k, v) :: rest => if bool_decide (k = key) then Some v else dict_lookup key rest
  end.

Definition py_get (key : str) (d : list (str * JsonValue)) : option JsonValue :=
  match dict_lookup key d with
  | Some JNull | None => None
  | Some v => Some v
  end.

(** What an HTTP request that is then read with [response.json()] does:
    an exception of the client, or a status with the body decoded, if it
    decodes. *)
Inductive Reply :=
| ReplyException
| ReplyResponse (status_code : Z) (json : option JsonValue).

(** [TelegramService.verify_bot], given what [GET .../getMe] does. *)
Definition verify_bot (r : Reply) : option JsonValue :=
  match r with
  | ReplyResponse status_code body =>
      if (status_code =? 200)%Z then
        match body with
        | Some (JDict d) => py_get (lit "result") d
        | _ => None
        end
      else None
  | ReplyException => None
  end.

Record HealthReport := mkHealthReport {
  health_status : str;
  health_service : str;
  health_version : str;
  telegram_connected : bool;
  telegram_bot_username : option JsonValue
}.

(** [health_check], given the [APP_NAME] and [APP_VERSION] settings and
    what [getMe] does; [None] is the [AttributeError] of [bot_info.get] on
    a value that is no dict. *)
Definition health_check (APP_NAME APP_VERSION : str) (r : Reply)
  : option HealthReport :=
  let bot_info := verify_bot r in
  let truthy_info :=
    match bot_info with
    | Some v => json_truthy v
    | None => false
    end in
  let connected :=
    match bot_info with
    | Some _ => true
    | None => false
    end in
  let status := if truthy_info then lit "healthy" else lit "degraded" in
  if truthy_info then
    match bot_info with
    | Some (JDict d) =>
        Some (mkHealthReport status APP_NAME APP_VERSION connected
                (py_get (lit "username") d))
    | _ => None
    end
  else Some (mkHealthReport status APP_NAME APP_VERSION connected None).

(* ================================================================== *)
(** * client/jahiz_client.py *)
(* ================================================================== *)

(** [s.rstrip(c)] for a one-character set. *)
Fixpoint rstrip (c : N) (s : str) : str :=
  match s with
  | [] => []
  | x :: t =>
      match rstrip c t with
      | [] => if (x =? c)%N then [] else [x]
      | r => x :: r
      end
  end.

(** [d[key] = v] on a dict: the member is replaced where it stands, or
    added at the end. *)
Fixpoint dict_set (key : str) (v : JsonValue) (d : list (str * JsonValue))
  : list (str * JsonValue) :=
  match d with
  | [] => [(key, v)]
  | (k, v') :: rest =>
      if bool_decide (k = key) then (k, v) :: rest
      else (k, v') :: dict_set key v rest
  end.

(** [d.update(other)] *)
Definition dict_update (d other : list (str * JsonValue))
  : list (str * JsonValue) :=
  fold_left (fun acc kv => dict_set (fst kv) (snd kv) acc) other d.

(** The field names of the models of app/models/error_payload.py. *)
Definition ErrorPayload_fields : list str :=
  [lit "error_message"; lit "severity"; lit "error_type"; lit "error_code";
   lit "stacktrace"; lit "file_name"; lit "line_number"; lit "function_name";
   lit "app_name"; lit "app_version"; lit "environment"; lit "service_name";
   lit "component"; lit "context"; lit "user"; lit "device"; lit "tags";
   lit "metadata"; lit "timestamp"; lit "fingerprint"].

Definition ErrorContext_fields : list str :=
  [lit "request_url"; lit "request_method"; lit "request_headers";
   lit "request_body"; lit "response_status"; lit "response_body";
   lit "query_params"].

Definition UserInfo_fields : list str :=
  [lit "user_id"; lit "username"; lit "email"; lit "session_id";
   lit "ip_address"].

Definition DeviceInfo_fields : list str :=
  [lit "hostname"; lit "os"; lit "os_version"; lit "ip_address";
   lit "architecture"; lit "cpu_usage"; lit "memory_usage"; lit "disk_usage"].

Module Client.

Record JahizClient := mkJahizClient {
  webhook_url : str;
  webhook_secret : str;
  app_name : option str;
  app_version : option str;
  environment : option str;
  service_name : option str;
  timeout : Q;
  collect_device_info : bool
}.

(** [JahizClient(...)] *)
Definition new_JahizClient (webhook_url webhook_secret : str)
  (app_name app_version environment service_name : option str)
  (timeout : Q) (collect_device_info : bool) : JahizClient :=
  mkJahizClient (rstrip 47 webhook_url) webhook_secret app_name app_version
    environment service_name timeout collect_device_info.

(** The arguments of [report_error]. *)
Record Args := mkArgs {
  message : str;
  severity : str;
  error_type : option str;
  error_code : option str;
  stacktrace : option str;
  file_name : option str;
  line_number : option Z;
  function_name : option str;
  fingerprint : option str;
  component : option str;
  user_id : option str;
  username : option str;
  email : option str;
  session_id : option str;
  user_ip : option str;
  tags : option (list (str * str));
  metadata : option (list (str * JsonValue));
  context : option (list (str * JsonValue));
  request_url : option str;
  request_method : option str;
  response_status : option Z
}.

(** What the machine answers to [_collect_device_info] and to
    [datetime.utcnow().isoformat()]; a reading of [psutil] or of the
    socket that raises is [None]. *)
Record Machine := mkMachine {
  gethostname : str;
  platform_system : str;
  platform_version : str;
  platform_machine : str;
  psutil_installed : bool;
  cpu_percent : option Q;
  memory_percent : option Q;
  disk_percent : option Q;
  getsockname : option str;
  utcnow_isoformat : str
}.

(** [if v: d[key] = v] and [if v is not None: d[key] = v] *)
Definition put_str (key : string) (o : option str)
  (d : list (str * JsonValue)) : list (str * JsonValue) :=
  match o with
  | Some (c :: s) => dict_set (lit key) (JStr (c :: s)) d
  | _ => d
  end.

Definition put_int (key : string) (o : option Z)
  (d : list (str * JsonValue)) : list (str * JsonValue) :=
  match o with
  | Some n => dict_set (lit key) (JNum (inject_Z n)) d
  | None => d
  end.

(** [_collect_device_info]; [None] is the [ImportError] of
    [import psutil]. *)
Definition _collect_device_info (m : Machine)
  : option (list (str * JsonValue)) :=
  if negb (psutil_installed m) then None
  else
    let info :=
      [(lit "hostname", JStr (gethostname m));
       (lit "os", JStr (platform_system m));
       (lit "os_version", JStr (platform_version m));
       (lit "architecture", JStr (platform_machine m))] in
    let info :=
      match cpu_percent m with
      | None => info
      | Some cpu =>
          let info := dict_set (lit "cpu_usage") (JNum cpu) info in
          match memory_percent m with
          | None => info
          | Some mem =>
              let info := dict_set (lit "memory_usage") (JNum mem) info in
              match disk_percent m with
              | None => info
              | Some disk => dict_set (lit "disk_usage") (JNum disk) info
              end
          end
      end in
    let info :=
      match getsockname m with
      | None => info
      | Some ip => dict_set (lit "ip_address") (JStr ip) info
      end in
    Some info.

(** The request context [report_error] builds. *)
Definition report_error_ctx (a : Args) : list (str * JsonValue) :=
  let ctx := [] in
  let ctx := put_str "request_url" (request_url a) ctx in
  let ctx := put_str "request_method" (request_method a) ctx in
  let ctx := put_int "response_status" (response_status a) ctx in
  match context a with
  | Some ((_ :: _) as c) => dict_update ctx c
  | _ => ctx
  end.

Definition report_error_user (a : Args) : list (str * JsonValue) :=
  let user_info := [] in
  let user_info := put_str "user_id" (user_id a) user_info in
  let user_info := put_str "username" (username a) user_info in
  let user_info := put_str "email" (email a) user_info in
  let user_info := put_str "session_id" (session_id a) user_info in
  put_str "ip_address" (user_ip a) user_info.

(** The payload [report_error] hands to [_send]; [None] is the
    [ImportError] out of [_collect_device_info]. *)
Definition report_error_payload (self : JahizClient) (m : Machine) (a : Args)
  : option (list (str * JsonValue)) :=
  let payload :=
    [(lit "error_message", JStr (message a));
     (lit "severity", JStr (severity a));
     (lit "timestamp", JStr (utcnow_isoformat m))] in
  let payload := put_str "error_type" (error_type a) payload in
  let payload := put_str "error_code" (error_code a) payload in
  let payload := put_str "stacktrace" (stacktrace a) payload in
  let payload := put_str "file_name" (file_name a) payload in
  let payload := put_int "line_number" (line_number a) payload in
  let payload := put_str "function_name" (function_name a) payload in
  let payload := put_str "fingerprint" (fingerprint a) payload in
  let payload := put_str "app_name" (app_name self) payload in
  let payload := put_str "app_version" (app_version self) payload in
  let payload := put_str "environment" (environment self) payload in
  let payload := put_str "service_name" (service_name self) payload in
  let payload := put_str "component" (component a) payload in
  let payload :=
    match report_error_ctx a with
    | [] => payload
    | ctx => dict_set (lit "context") (JDict ctx) payload
    end in
  let payload :=
    match report_error_user a with
    | [] => payload
    | user_info => dict_set (lit "user") (JDict user_info) payload
    end in
  let with_device :=
    if collect_device_info self then
      match _collect_device_info m with
      | Some info => Some (dict_set (lit "device") (JDict info) payload)
      | None => None
      end
    else Some payload in
  match with_device with
  | None => None
  | Some payload =>
      let payload :=
        match tags a with
        | Some ((_ :: _) as t) =>
            dict_set (lit "tags")
              (JDict (List.map (fun kv => (fst kv, JStr (snd kv))) t)) payload
        | _ => payload
        end in
      let payload :=
        match metadata a with
        | Some ((_ :: _) as md) => dict_set (lit "metadata") (JDict md) payload
        | _ => payload
        end in
      Some payload
  end.

(** [_send] and [async_send], given what the post does: the decoded body
    of a 200, [None] for everything else. *)
Definition _send (r : Reply) : option JsonValue :=
  match r with
  | ReplyResponse status_code body =>
      if (status_code =? 200)%Z then
        match body with
        | Some JNull | None => None
        | Some v => Some v
        end
      else None
  | ReplyException => None
  end.

End Client.

(** The member names of a dict. *)
Definition dict_keys (d : list (str * JsonValue)) : list str := List.map fst d.

(** A dict with known member names only, each once. *)
Definition tidy (fields : list str) (d : list (str * JsonValue)) : Prop :=
  Forall (fun k => k ∈ fields) (dict_keys d) /\ NoDup (dict_keys d).

(* ================================================================== *)
(** * The message as the specification words it *)
(* ================================================================== *)

(** A second description of the message, to compare the formatter with.
    A line is a sequence of pieces of three kinds: a structural literal of
    the formatter (label, separator, tag, badge), a text the program
    generates (the error id, a number, the date), and a free text taken
    from the record.  On the rendering surface the first two are written
    as they are and the third with each [&], [<], [>] written as [&amp;],
    [&lt;], [&gt;]. *)
Inductive piece :=
| Lit (s : str)
| Gen (s : str)
| Field (s : str).

Definition render_piece (p : piece) : str :=
  match p with
  | Lit s => s
  | Gen s => s
  | Field s => flat_map escape_char s
  end.

Definition render_line (ps : list piece) : str := flat_map render_piece ps.

(** Lines of pieces joined into one line by a separator. *)
Fixpoint join_pieces (sep : piece) (lines : list (list piece)) : list piece :=
  match lines with
  | [] => []
  | x :: rest =>
      match rest with
      | [] => x
      | _ :: _ => x ++ sep :: join_pieces sep rest
      end
  end.

(** A line that is there when its text is present and not empty, or when
    its value is present. *)
Definition line_if (o : option str) (f : str -> list piece)
  : list (list piece) :=
  match o with
  | Some (c :: s) => [f (c :: s)]
  | _ => []
  end.

Definition line_some {A} (o : option A) (f : A -> list piece)
  : list (list piece) :=
  match o with
  | Some a => [f a]
  | None => []
  end.

(** A block: its title, its lines, an empty line; nothing without lines. *)
Definition titled (title : str) (lines : list (list piece))
  : list (list piece) :=
  match lines with
  | [] => []
  | _ :: _ => [[Lit title]] ++ lines ++ [[]]
  end.

Definition template_header (payload : ErrorPayload) (error_id : str)
  : list piece :=
  [Lit (dict_get SEVERITY_EMOJI (severity payload) [9898%N]);
   Lit (lit " <b>");
   Lit (dict_get SEVERITY_LABEL (severity payload) (lit "UNKNOWN"));
   Lit (lit "</b> | <code>"); Gen error_id; Lit (lit "</code>")].

Definition template_type_code (payload : ErrorPayload) : list (list piece) :=
  line_if (error_type payload)
    (fun s => [Lit (lit "<b>Type:</b> <code>"); Field s; Lit (lit "</code>")])
  ++ line_if (error_code payload)
    (fun s => [Lit (lit "<b>Code:</b> <code>"); Field s; Lit (lit "</code>")]).

Definition template_location_parts (payload : ErrorPayload)
  : list (list piece) :=
  line_if (file_name payload) (fun s => [Field s])
  ++ line_some (line_number payload)
       (fun n => [Lit (lit "line "); Gen (str_of_Z n)])
  ++ line_if (function_name payload)
       (fun s => [Lit (lit "in "); Field s; Lit (lit "()")]).

Definition template_location (payload : ErrorPayload) : list (list piece) :=
  match template_location_parts payload with
  | [] => []
  | ps =>
      [[Lit (lit "<b>Location:</b> <code>")]
         ++ join_pieces (Lit (lit " | ")) ps ++ [Lit (lit "</code>")]]
  end.

Definition template_app (payload : ErrorPayload) : list (list piece) :=
  line_if (app_name payload) (fun s => [Lit (lit "  App: "); Field s])
  ++ line_if (app_version payload)
       (fun s => [Lit (lit "  Version: "); Field s])
  ++ line_if (environment payload) (fun s => [Lit (lit "  Env: "); Field s])
  ++ line_if (service_name payload)
       (fun s => [Lit (lit "  Service: "); Field s])
  ++ line_if (component payload)
       (fun s => [Lit (lit "  Component: "); Field s]).

Definition template_ctx (ctx : ErrorContext) : list (list piece) :=
  (if truthy (request_method ctx) && truthy (request_url ctx) then
     [[Lit (lit "  "); Field (default [] (request_method ctx));
       Lit (lit " "); Field (default [] (request_url ctx))]]
   else
     line_if (request_url ctx) (fun s => [Lit (lit "  URL: "); Field s]))
  ++ line_some (response_status ctx)
       (fun n => [Lit (lit "  Status: "); Gen (str_of_Z n)])
  ++ match query_params ctx with
     | Some ((_ :: _) as items) =>
         [[Lit (lit "  Params: ")]
            ++ join_pieces (Lit (lit ", "))
                 (List.map
                    (fun kv => [Field (fst kv); Lit (lit "="); Field (snd kv)])
                    items)]
     | _ => []
     end.

Definition template_user (u : UserInfo) : list (list piece) :=
  line_if (user_id u)
    (fun s => [Lit (lit "  ID: <code>"); Field s; Lit (lit "</code>")])
  ++ line_if (username u) (fun s => [Lit (lit "  Username: "); Field s])
  ++ line_if (email u) (fun s => [Lit (lit "  Email: "); Field s])
  ++ line_if (session_id u)
       (fun s => [Lit (lit "  Session: <code>"); Field s; Lit (lit "</code>")])
  ++ line_if (user_ip_address u)
       (fun s => [Lit (lit "  IP: <code>"); Field s; Lit (lit "</code>")]).

Definition template_resources (d : DeviceInfo) : list (list piece) :=
  line_some (cpu_usage d)
    (fun x => [Lit (lit "CPU "); Gen (format_1f x); Lit (lit "%")])
  ++ line_some (memory_usage d)
       (fun x => [Lit (lit "MEM "); Gen (format_1f x); Lit (lit "%")])
  ++ line_some (disk_usage d)
       (fun x => [Lit (lit "DISK "); Gen (format_1f x); Lit (lit "%")]).

Definition template_device (d : DeviceInfo) : list (list piece) :=
  line_if (hostname d)
    (fun s => [Lit (lit "  Host: <code>"); Field s; Lit (lit "</code>")])
  ++ line_if (os d)
       (fun s =>
          [Lit (lit "  OS: "); Field s]
            ++ (if truthy (os_version d)
                then [Lit (lit " "); Field (default [] (os_version d))]
                else []))
  ++ line_if (device_ip_address d)
       (fun s => [Lit (lit "  IP: <code>"); Field s; Lit (lit "</code>")])
  ++ line_if (architecture d) (fun s => [Lit (lit "  Arch: "); Field s])
  ++ match template_resources d with
     | [] => []
     | rs =>
         [[Lit (lit "  Resources: ")] ++ join_pieces (Lit (lit " | ")) rs]
     end.

Definition template_tags (payload : ErrorPayload) : list (list piece) :=
  match tags payload with
  | Some ((_ :: _) as items) =>
      [[Lit (lit "<b>Tags:</b> ")]
         ++ join_pieces (Lit (lit " "))
              (List.map
                 (fun kv =>
                    [Lit (lit "<code>#"); Field (fst kv); Lit (lit ":");
                     Field (snd kv); Lit (lit "</code>")])
                 items);
       []]
  | _ => []
  end.

(** The text of the metadata block: the first 20 entries, a line each. *)
Definition template_metadata_entries (items : list (str * Any)) : list piece :=
  join_pieces (Lit nl)
    (List.map
       (fun kv =>
          [Lit (lit "  "); Field (fst kv); Lit (lit ": ");
           Field (py_str (snd kv))])
       (firstn 20 items)).

(** The metadata block when its text is within the ceiling. *)
Definition template_metadata (payload : ErrorPayload) : list (list piece) :=
  match metadata payload with
  | Some ((_ :: _) as items) =>
      [[Lit (lit "<b>Metadata</b>")];
       [Lit (lit "<pre>")] ++ template_metadata_entries items
         ++ [Lit (lit "</pre>")];
       []]
  | _ => []
  end.

(** The metadata block in general: the rendered text of the entries, whole,
    or its part up to the ceiling and the marker. *)
Definition rendered_metadata (self : TelegramService) (payload : ErrorPayload)
  : list str :=
  match metadata payload with
  | Some ((_ :: _) as items) =>
      let text := render_line (template_metadata_entries items) in
      [lit "<b>Metadata</b>";
       lit "<pre>"
         ++ (if (max_metadata self <? Z.of_nat (length text))%Z
             then slice_to (max_metadata self) text
                    ++ nl ++ lit "  ... (truncated)"
             else text)
         ++ lit "</pre>";
       []]
  | _ => []
  end.

(** The stack trace: whole, or its part up to the ceiling and the marker. *)
Definition template_stacktrace (self : TelegramService)
  (payload : ErrorPayload) : list (list piece) :=
  match stacktrace payload with
  | Some ((_ :: _) as trace) =>
      [[Lit (lit "<b>Stacktrace</b>")];
       [Lit (lit "<pre>")]
         ++ (if (max_stacktrace self <? Z.of_nat (length trace))%Z
             then [Field (slice_to (max_stacktrace self) trace);
                   Lit (nl ++ lit "... (truncated)")]
             else [Field trace])
         ++ [Lit (lit "</pre>")];
       []]
  | _ => []
  end.

Definition template_footer (payload : ErrorPayload) : list (list piece) :=
  [[Lit (lit "<i>"); Gen (strftime (timestamp payload)); Lit (lit "</i>")]]
  ++ line_if (fingerprint payload)
       (fun s =>
          [Lit (lit "Fingerprint: <code>"); Field s; Lit (lit "</code>")]).

(** The lines before the metadata block, and the lines after it. *)
Definition template_before (payload : ErrorPayload) (error_id : str)
  : list (list piece) :=
  [template_header payload error_id; []]
  ++ [[Lit (lit "<b>Message:</b> "); Field (error_message payload)]]
  ++ template_type_code payload
  ++ template_location payload
  ++ [[]]
  ++ titled (lit "<b>Application</b>") (template_app payload)
  ++ match context payload with
     | Some ctx => titled (lit "<b>Request</b>") (template_ctx ctx)
     | None => []
     end
  ++ match user payload with
     | Some u => titled (lit "<b>User</b>") (template_user u)
     | None => []
     end
  ++ match device payload with
     | Some d => titled (lit "<b>Server</b>") (template_device d)
     | None => []
     end
  ++ template_tags payload.

Definition template_after (self : TelegramService) (payload : ErrorPayload)
  : list (list piece) :=
  template_stacktrace self payload ++ template_footer payload.

(** A report with markup characters in every kind of field. *)
Definition markup_payload : ErrorPayload :=
  mkErrorPayload (lit "a<b && c>d") WARNING (Some (lit "T<E>"))
    (Some (lit "E&1")) (Some (lit "<trace> & more")) (Some (lit "a&b.py"))
    (Some 7%Z) (Some (lit "f<g>"))
    (Some (lit "app&co")) None (Some (lit "<prod>")) None None
    (Some (mkErrorContext (Some (lit "http://h/?a=1&b=2")) (Some (lit "GET"))
             None None (Some 500%Z) None
             (Some [(lit "a", lit "1<2"); (lit "b&", lit ">")])))
    (Some (mkUserInfo (Some (lit "u<1>")) None (Some (lit "a&b@c")) None None))
    (Some (mkDeviceInfo (Some (lit "h&1")) (Some (lit "Linux"))
             (Some (lit "<6.1>")) None None (Some (1 # 2)%Q) None None))
    (Some [(lit "t<1", lit "v&1"); (lit "k", lit "<v>")])
    (Some [(lit "m&", AStr (lit "<x>")); (lit "n", AInt 3)])
    sample_datetime (Some (lit "f&p")).

(* ================================================================== *)
(** * Properties of the rate limiter *)
(* ================================================================== *)

Section RateLimiterFacts.

Implicit Types (self : RateLimiter) (key k : str) (l : list Q).

Lemma Qgtb_true a b : Qgtb a b = true <-> (b < a)%Q.
Proof.
  unfold Qgtb. rewrite negb_true_iff, <- not_true_iff_false, Qle_bool_iff.
  split; intros H; lra.
Qed.

Lemma Qgtb_false a b : Qgtb a b = false <-> (a <= b)%Q.
Proof.
  unfold Qgtb. rewrite negb_false_iff, Qle_bool_iff. reflexivity.
Qed.

Lemma getitem_fst key (m : gmap str (list Q)) :
  fst (getitem key m) = default [] (m !! key).
Proof. unfold getitem. destruct (m !! key); reflexivity. Qed.

Lemma getitem_insert key l (m : gmap str (list Q)) :
  getitem key (<[key := l]> m) = (l, <[key := l]> m).
Proof. unfold getitem. rewrite lookup_insert_eq. reflexivity. Qed.

Lemma insert_getitem key l (m : gmap str (list Q)) :
  <[key := l]> (snd (getitem key m)) = <[key := l]> m.
Proof.
  unfold getitem. destruct (m !! key); simpl; [reflexivity |].
  apply insert_insert_eq.
Qed.

Lemma getitem_lookup key k (m : gmap str (list Q)) :
  default [] (snd (getitem key m) !! k) = default [] (m !! k).
Proof.
  unfold getitem. destruct (m !! key) eqn:E; simpl; [reflexivity |].
  destruct (decide (key = k)) as [-> | Hne].
  - rewrite lookup_insert_eq, E. reflexivity.
  - rewrite lookup_insert_ne by assumption. reflexivity.
Qed.

Lemma is_allowed_eq now key self :
  is_allowed now key self =
  let r := key_step (max_requests self) (window_seconds self) now
             (stored key self) in
  (fst r, with_requests self (<[key := snd r]> (_requests self))).
Proof.
  unfold is_allowed, key_step, stored, getitem.
  destruct (_requests self !! key) as [l |] eqn:E; simpl.
  - rewrite lookup_insert_eq.
    destruct (max_requests self <=? _)%Z; simpl; [reflexivity |].
    rewrite lookup_insert_eq, insert_insert_eq. reflexivity.
  - rewrite insert_insert_eq, lookup_insert_eq.
    destruct (max_requests self <=? _)%Z; simpl; [reflexivity |].
    rewrite lookup_insert_eq, insert_insert_eq. reflexivity.
Qed.

Lemma remaining_eq now key self :
  remaining now key self =
  let l' := purge (now - inject_Z (window_seconds self)) (stored key self) in
  (Z.max 0 (max_requests self - Z.of_nat (length l')),
   with_requests self (<[key := l']> (_requests self))).
Proof.
  unfold remaining, stored.
  rewrite <- (getitem_fst key (_requests self)).
  destruct (getitem key (_requests self)) as [l m1] eqn:E.
  rewrite getitem_insert. simpl.
  replace m1 with (snd (getitem key (_requests self))) by (rewrite E; reflexivity).
  rewrite insert_getitem. reflexivity.
Qed.

Lemma reset_time_eq key self :
  reset_time key self =
  (match stored key self with
   | [] => None
   | oldest :: _ => Some (oldest + inject_Z (window_seconds self))%Q
   end,
   with_requests self (snd (getitem key (_requests self)))).
Proof.
  unfold reset_time, stored.
  rewrite <- (getitem_fst key (_requests self)).
  unfold getitem at 1 3 4.
  destruct (_requests self !! key) as [l |] eqn:E; simpl.
  - destruct l as [| t l]; [reflexivity |].
    unfold getitem. rewrite E. reflexivity.
  - reflexivity.
Qed.

(** ** What each call leaves in the map *)

Lemma stored_insert key k l self :
  stored k (with_requests self (<[key := l]> (_requests self)))
  = if decide (key = k) then l else stored k self.
Proof.
  unfold stored. simpl. rewrite lookup_insert.
  destruct (decide (key = k)); reflexivity.
Qed.

Lemma is_allowed_fst now key self :
  fst (is_allowed now key self)
  = fst (key_step (max_requests self) (window_seconds self) now
           (stored key self)).
Proof. rewrite is_allowed_eq. reflexivity. Qed.

Lemma is_allowed_stored now key self :
  stored key (snd (is_allowed now key self))
  = snd (key_step (max_requests self) (window_seconds self) now
           (stored key self)).
Proof.
  rewrite is_allowed_eq. cbv zeta. simpl snd at 1.
  rewrite stored_insert, decide_True by reflexivity. reflexivity.
Qed.

Lemma is_allowed_stored_ne now key k self :
  key <> k -> stored k (snd (is_allowed now key self)) = stored k self.
Proof.
  intros Hne. rewrite is_allowed_eq. cbv zeta. simpl snd at 1.
  rewrite stored_insert, decide_False by assumption. reflexivity.
Qed.

Lemma is_allowed_config now key self :
  max_requests (snd (is_allowed now key self)) = max_requests self
  /\ window_seconds (snd (is_allowed now key self)) = window_seconds self.
Proof. rewrite is_allowed_eq. split; reflexivity. Qed.

Lemma reset_time_stored key k self :
  stored k (snd (reset_time key self)) = stored k self.
Proof. rewrite reset_time_eq. unfold stored. simpl. apply getitem_lookup. Qed.

(** ** The purge *)

Lemma purge_length θ l : (length (purge θ l) <= length l)%nat.
Proof.
  induction l as [| a l IH]; simpl; [lia |].
  destruct (Qgtb a θ); simpl; lia.
Qed.

Lemma purge_keeps_all θ l : length (purge θ l) = length l -> purge θ l = l.
Proof.
  induction l as [| a l IH]; simpl; [reflexivity |].
  destruct (Qgtb a θ); simpl; intros H.
  - f_equal. apply IH. lia.
  - pose proof (purge_length θ l). lia.
Qed.

Lemma purge_app θ l1 l2 : purge θ (l1 ++ l2) = purge θ l1 ++ purge θ l2.
Proof. apply List.filter_app. Qed.

Lemma purge_purge θ θ' l :
  (θ <= θ')%Q -> purge θ' (purge θ l) = purge θ' l.
Proof.
  intros Hle. induction l as [| a l IH]; simpl; [reflexivity |].
  destruct (Qgtb a θ) eqn:E1; simpl; rewrite IH; [reflexivity |].
  destruct (Qgtb a θ') eqn:E2; [| reflexivity].
  apply Qgtb_true in E2. apply Qgtb_false in E1. lra.
Qed.

(** ** The capacity invariant *)

Lemma capped_insert key l self :
  capped self ->
  (Z.of_nat (length l) <= Z.max 0 (max_requests self))%Z ->
  capped (with_requests self (<[key := l]> (_requests self))).
Proof.
  intros Hc Hl k l'. simpl. rewrite lookup_insert.
  destruct (decide (key = k)).
  - intros [= <-]. exact Hl.
  - apply Hc.
Qed.

Lemma capped_stored key self :
  capped self ->
  (Z.of_nat (length (stored key self)) <= Z.max 0 (max_requests self))%Z.
Proof.
  intros Hc. unfold stored.
  destruct (_requests self !! key) as [l |] eqn:E; simpl.
  - exact (Hc _ _ E).
  - lia.
Qed.

Lemma capped_new n w : capped (new_RateLimiter n w).
Proof. intros k l. simpl. rewrite lookup_empty. discriminate. Qed.

Lemma capped_call c self : capped self -> capped (call c self).
Proof.
  intros Hc. pose proof (capped_stored) as Hs.
  destruct c as [now key | now key | key]; simpl.
  - rewrite is_allowed_eq. cbv zeta. simpl snd.
    apply capped_insert; [assumption |].
    unfold key_step.
    pose proof (purge_length (now - inject_Z (window_seconds self))
                  (stored key self)).
    specialize (Hs key self Hc).
    destruct (Z.leb_spec (max_requests self)
                (Z.of_nat (length (purge (now - inject_Z (window_seconds self))
                                     (stored key self))))); simpl.
    + lia.
    + rewrite length_app. simpl. lia.
  - rewrite remaining_eq. cbv zeta. simpl snd.
    apply capped_insert; [assumption |].
    pose proof (purge_length (now - inject_Z (window_seconds self))
                  (stored key self)).
    specialize (Hs key self Hc). lia.
  - rewrite reset_time_eq. simpl snd.
    intros k l. simpl. unfold getitem.
    destruct (_requests self !! key) eqn:E; simpl.
    + apply Hc.
    + rewrite lookup_insert. destruct (decide (key = k)).
      * intros [= <-]. simpl. lia.
      * apply Hc.
Qed.

Lemma call_config c self :
  max_requests (call c self) = max_requests self
  /\ window_seconds (call c self) = window_seconds self.
Proof.
  destruct c; simpl.
  - apply is_allowed_config.
  - rewrite remaining_eq. split; reflexivity.
  - rewrite reset_time_eq. split; reflexivity.
Qed.

Lemma calls_capped cs self :
  capped self ->
  capped (calls cs self) /\ max_requests (calls cs self) = max_requests self
  /\ window_seconds (calls cs self) = window_seconds self.
Proof.
  revert self. induction cs as [| c cs IH]; intros self Hc; simpl.
  - auto.
  - destruct (IH (call c self) (capped_call c self Hc)) as (H1 & H2 & H3).
    destruct (call_config c self) as [E1 E2].
    unfold calls in *. rewrite H2, H3, E1, E2. auto.
Qed.

(** C10.  Starting from the empty limiter with a capacity
    [max_requests >= 0], after any sequence of [is_allowed], [remaining]
    and [reset_time] calls (any keys, any clock readings) the timestamp
    list stored for every key has at most [max_requests] elements. *)
Theorem stored_lists_within_capacity (N W : Z) (cs : list Call)
  (k : str) (l : list Q) :
  (0 <= N)%Z ->
  _requests (calls cs (new_RateLimiter N W)) !! k = Some l ->
  (Z.of_nat (length l) <= N)%Z.
Proof.
  intros HN Hk.
  destruct (calls_capped cs (new_RateLimiter N W) (capped_new N W))
    as (Hc & Hm & _).
  specialize (Hc k l Hk). rewrite Hm in Hc. simpl in Hc. lia.
Qed.

Lemma stored_lists_within_capacity_witness :
  (Z.of_nat (length [0%Q; 0%Q]) <= 2)%Z.
Proof.
  apply (stored_lists_within_capacity 2 60
           [IsAllowed 0 (lit "k"); Remaining 0 (lit "k");
            IsAllowed 0 (lit "k"); ResetTime (lit "k");
            IsAllowed 0 (lit "k")]
           (lit "k") [0%Q; 0%Q]).
  - lia.
  - vm_compute. reflexivity.
Defined.

(** C8.  In every state the limiter can be in (any sequence of calls
    after construction), a denied [is_allowed] leaves the list stored for
    the key as it was, an allowed one leaves the purged list with the
    current time appended, and no other key and no setting changes. *)
Theorem is_allowed_frame (N W : Z) (cs : list Call) (now : Q) (key : str) :
  let self := calls cs (new_RateLimiter N W) in
  let self' := snd (is_allowed now key self) in
  let purged := purge (now - inject_Z W) (stored key self) in
  (fst (is_allowed now key self) = false ->
     (N <= Z.of_nat (length purged))%Z /\ stored key self' = stored key self)
  /\ (fst (is_allowed now key self) = true ->
     stored key self' = purged ++ [now])
  /\ (forall k, key <> k -> stored k self' = stored k self)
  /\ max_requests self' = N /\ window_seconds self' = W.
Proof.
  intros self self' purged.
  destruct (calls_capped cs (new_RateLimiter N W) (capped_new N W))
    as (Hc & Hm & Hw).
  fold self in Hc, Hm, Hw. simpl in Hm, Hw.
  destruct (is_allowed_config now key self) as [E1 E2].
  subst self'. rewrite is_allowed_fst, is_allowed_stored, E1, E2, Hm, Hw.
  fold purged. unfold key_step. fold purged.
  repeat split; try assumption.
  - destruct (Z.leb_spec N (Z.of_nat (length purged))); [lia | discriminate].
  - destruct (Z.leb_spec N (Z.of_nat (length purged))) as [Hle |];
      [| discriminate].
    simpl. apply purge_keeps_all.
    pose proof (capped_stored key self Hc) as Hs. rewrite Hm in Hs.
    pose proof (purge_length (now - inject_Z W) (stored key self)) as Hp.
    fold purged in Hp |- *.
    destruct (Z.le_gt_cases 0 N) as [Hpos | Hneg].
    + lia.
    + assert (length (stored key self) = 0%nat) as Hnil by lia.
      subst purged. destruct (stored key self); [reflexivity | discriminate].
  - destruct (Z.leb_spec N (Z.of_nat (length purged))); [discriminate |].
    reflexivity.
  - intros k Hne. apply is_allowed_stored_ne. assumption.
Qed.

Lemma is_allowed_frame_witness :
  let self := calls [IsAllowed 0 (lit "k")] (new_RateLimiter 1 60) in
  (1 <= Z.of_nat (length (purge (1 - inject_Z 60) (stored (lit "k") self))))%Z
  /\ stored (lit "k") (snd (is_allowed 1 (lit "k") self))
     = stored (lit "k") self.
Proof.
  apply (proj1 (is_allowed_frame 1 60 [IsAllowed 0 (lit "k")] 1 (lit "k"))).
  vm_compute. reflexivity.
Defined.

(** ** The sliding window *)

Lemma count_in_window_app W T l1 l2 :
  count_in_window W T (l1 ++ l2)
  = (count_in_window W T l1 + count_in_window W T l2)%nat.
Proof.
  unfold count_in_window. rewrite List.filter_app, length_app. reflexivity.
Qed.

(** Whatever lies in the window that ends at [T] survives a purge made at
    a time [now <= T]. *)
Lemma count_in_window_purge W T now l :
  (now <= T)%Q ->
  (count_in_window W T l <= length (purge (now - inject_Z W) l))%nat.
Proof.
  intros Hle. unfold count_in_window, purge.
  induction l as [| a l IH]; simpl; [lia |].
  unfold in_window at 1.
  destruct (Qgtb a (T - inject_Z W)) eqn:E1; simpl.
  - assert (Qgtb a (now - inject_Z W) = true) as ->.
    { apply Qgtb_true. apply Qgtb_true in E1. lra. }
    destruct (Qle_bool a T); simpl; lia.
  - destruct (Qgtb a (now - inject_Z W)); simpl; lia.
Qed.

Lemma in_window_empty W T t : (W <= 0)%Z -> in_window W T t = false.
Proof.
  intros HW. unfold in_window.
  destruct (Qgtb t (T - inject_Z W)) eqn:E1; [| reflexivity].
  destruct (Qle_bool t T) eqn:E2; [| reflexivity].
  apply Qgtb_true in E1. apply Qle_bool_iff in E2.
  assert (inject_Z W <= inject_Z 0)%Q as H by (rewrite <- Zle_Qle; exact HW).
  change (inject_Z 0) with 0%Q in H. lra.
Qed.

Lemma count_in_window_empty W T l : (W <= 0)%Z -> count_in_window W T l = 0%nat.
Proof.
  intros HW. unfold count_in_window.
  induction l as [| a l IH]; simpl; [reflexivity |].
  rewrite in_window_empty by assumption. exact IH.
Qed.

(** The invariant of a run of [is_allowed] on one key: the stored list is
    the purge of the times allowed so far, and no window holds more than
    [N] of them. *)
Lemma is_allowed_seq_window (N W : Z) key :
  (0 < W)%Z ->
  forall times self A θ,
    max_requests self = N -> window_seconds self = W ->
    nondecreasing times ->
    match times with
    | [] => True
    | t :: _ => (θ <= t - inject_Z W)%Q
    end ->
    stored key self = purge θ A ->
    (forall T, (Z.of_nat (count_in_window W T A) <= N)%Z) ->
    forall T,
      (Z.of_nat
         (count_in_window W T
            (A ++ allowed_times times (fst (is_allowed_seq key times self))))
       <= N)%Z.
Proof.
  intros HW. assert (0 < inject_Z W)%Q as HWq.
  { change 0%Q with (inject_Z 0). rewrite <- Zlt_Qlt. exact HW. }
  induction times as [| now rest IH]; intros self A θ HN HWs Hnd Hθ Hst HA T.
  - simpl. rewrite app_nil_r. apply HA.
  - simpl.
    destruct (is_allowed now key self) as [b self1] eqn:E.
    destruct (is_allowed_seq key rest self1) as [bs self2] eqn:Es.
    pose proof (is_allowed_fst now key self) as Hb.
    pose proof (is_allowed_stored now key self) as Hs1.
    destruct (is_allowed_config now key self) as [Hc1 Hc2].
    rewrite E in Hb, Hs1, Hc1, Hc2. simpl in Hb, Hs1, Hc1, Hc2.
    rewrite HN, HWs in *. rewrite Hst in Hb, Hs1.
    unfold key_step in Hb, Hs1.
    rewrite (purge_purge θ (now - inject_Z W) A Hθ) in Hb, Hs1.
    destruct Hnd as [Hhd Hnd].
    assert (Hnext : match rest with
                    | [] => True
                    | t :: _ => (now - inject_Z W <= t - inject_Z W)%Q
                    end).
    { destruct rest; [exact I | lra]. }
    replace bs with (fst (is_allowed_seq key rest self1))
      by (rewrite Es; reflexivity).
    destruct (Z.leb_spec N (Z.of_nat (length (purge (now - inject_Z W) A))))
      as [Hfull | Hroom]; simpl in Hb, Hs1; subst b; simpl.
    + apply (IH self1 A (now - inject_Z W)%Q); auto.
    + change (now :: allowed_times rest (fst (is_allowed_seq key rest self1)))
        with ([now] ++ allowed_times rest (fst (is_allowed_seq key rest self1))).
      rewrite app_assoc.
      apply (IH self1 (A ++ [now]) (now - inject_Z W)%Q); auto.
      * rewrite Hs1, purge_app. f_equal. simpl.
        assert (Qgtb now (now - inject_Z W) = true) as ->; [| reflexivity].
        apply Qgtb_true. lra.
      * intros T'. rewrite count_in_window_app.
        unfold count_in_window at 2. simpl.
        destruct (in_window W T' now) eqn:Ein; simpl.
        -- unfold in_window in Ein. apply andb_true_iff in Ein as [_ Ein].
           apply Qle_bool_iff in Ein.
           pose proof (count_in_window_purge W T' now A Ein). lia.
        -- specialize (HA T'). lia.
Qed.

(** C3, as the code has it.  For a run of [is_allowed] calls on one key,
    made on a fresh limiter of capacity [N >= 0] and window [W] at clock
    readings that never run backwards, the calls answered [True] whose time
    lies in the trailing window [(T - W, T]] are at most [N], whatever [T];
    and with [N = 2], [W = 60], three calls at time 0 are answered
    [True, True, False] and [remaining] is then 0. *)
Theorem is_allowed_window_capacity :
  (forall (N W : Z) (key : str) (times : list Q) (T : Q),
      (0 <= N)%Z ->
      nondecreasing times ->
      (Z.of_nat
         (count_in_window W T
            (allowed_times times
               (fst (is_allowed_seq key times (new_RateLimiter N W)))))
       <= N)%Z)
  /\ (let run := is_allowed_seq (lit "k") [0%Q; 0%Q; 0%Q]
                   (new_RateLimiter 2 60) in
      fst run = [true; true; false]
      /\ fst (remaining 0 (lit "k") (snd run)) = 0%Z).
Proof.
  split.
  - intros N W key times T HN Hnd.
    destruct (Z.lt_ge_cases 0 W) as [HW | HW].
    + apply (is_allowed_seq_window N W key HW times (new_RateLimiter N W) []
               (match times with
                | [] => 0
                | t :: _ => t - inject_Z W
                end)%Q); auto.
      destruct times; [exact I | lra].
    + rewrite count_in_window_empty by assumption. simpl. lia.
  - vm_compute. split; reflexivity.
Qed.

(** C3, the claim refuted.  [time.time()] is the wall clock and may be
    set back between two calls.  With [N = 2], [W = 60] and the readings
    0, 1, 100, 2 every call is granted (the call at 100 purges the two
    earlier timestamps, which the call at 2 would still have counted), so
    three granted calls, at 0, 1 and 2, lie in the window [(-58, 2]]. *)
Lemma is_allowed_clock_set_back :
  let times := [0%Q; 1%Q; 100%Q; 2%Q] in
  let run := is_allowed_seq (lit "k") times (new_RateLimiter 2 60) in
  fst run = [true; true; true; true]
  /\ count_in_window 60 2 (allowed_times times (fst run)) = 3%nat
  /\ ~ (Z.of_nat (count_in_window 60 2 (allowed_times times (fst run)))
        <= 2)%Z.
Proof. vm_compute. repeat split; try reflexivity. intros H. apply H. reflexivity. Qed.

(** The window is open at its old end: a timestamp exactly [W] old has
    left it ([ts > now - W]), so with [N = 1], [W = 60] a call at time 60
    is allowed after one at time 0. *)
Example is_allowed_window_boundary :
  fst (is_allowed_seq (lit "k") [0%Q; 60%Q] (new_RateLimiter 1 60))
  = [true; true]
  /\ fst (is_allowed_seq (lit "k") [0%Q; (599 # 10)%Q] (new_RateLimiter 1 60))
     = [true; false].
Proof. vm_compute. split; reflexivity. Qed.

Lemma is_allowed_window_capacity_witness :
  (Z.of_nat
     (count_in_window 60 70
        (allowed_times [0%Q; 10%Q; 20%Q; 65%Q]
           (fst (is_allowed_seq (lit "k") [0%Q; 10%Q; 20%Q; 65%Q]
                   (new_RateLimiter 2 60)))))
   <= 2)%Z.
Proof.
  apply (proj1 is_allowed_window_capacity 2%Z 60%Z (lit "k")
           [0%Q; 10%Q; 20%Q; 65%Q] 70%Q).
  - lia.
  - simpl. repeat split; unfold Qle; simpl; lia.
Defined.

(** ** [reset_time] *)

(** [reset_time] reads the stored list as it is. *)
Lemma reset_time_reads_stored key self :
  fst (reset_time key self)
  = match stored key self with
    | [] => None
    | oldest :: _ => Some (oldest + inject_Z (window_seconds self))%Q
    end.
Proof. rewrite reset_time_eq. reflexivity. Qed.

(** Right after a purge made at the same instant ([remaining]), it agrees
    with the window: the oldest time still inside it, or nothing. *)
Lemma reset_time_after_remaining now key self :
  fst (reset_time key (snd (remaining now key self)))
  = match purge (now - inject_Z (window_seconds self)) (stored key self) with
    | [] => None
    | oldest :: _ => Some (oldest + inject_Z (window_seconds self))%Q
    end.
Proof.
  rewrite reset_time_reads_stored, remaining_eq. cbv zeta. simpl snd.
  rewrite stored_insert, decide_True by reflexivity. reflexivity.
Qed.

(** C4.  [reset_time] does not purge.  A key allowed once at time 0 with
    [W = 60] has, for a call made at time 1000, no timestamp left inside
    the trailing window [(940, 1000]] ([remaining] at that time reports the
    full quota), yet [reset_time] answers [0 + 60] instead of [None]. *)
Theorem reset_time_ignores_window :
  let self := snd (is_allowed 0 (lit "k") (new_RateLimiter 2 60)) in
  purge (1000 - inject_Z 60) (stored (lit "k") self) = []
  /\ fst (remaining 1000 (lit "k") self) = 2%Z
  /\ fst (reset_time (lit "k") self) = Some (0 + inject_Z 60)%Q.
Proof. vm_compute. repeat split; reflexivity. Qed.

End RateLimiterFacts.

(* ================================================================== *)
(** * Properties of the dispatch *)
(* ================================================================== *)

Section DispatchFacts.

Variable env : Env.

Lemma send_error_notification_eq self payload id w :
  send_error_notification env self payload id w
  = (inr (post_ok (httpx_post env (length (posted w))
                     (_format_message self payload id))),
     mkWorld (rate_limiter w) (clock_reads w) (ids_drawn w)
       (posted w ++ [_format_message self payload id])).
Proof.
  unfold send_error_notification, bind, post_sendMessage, post_ok, ret.
  destruct (httpx_post env (length (posted w)) _) as [| | code [| [|]]];
    try reflexivity; simpl; destruct (code =? 200)%Z; reflexivity.
Qed.

(** [payload.fingerprint or "global"]: the fingerprint when it is a
    non-empty string, the fixed key otherwise. *)
Lemma rate_key_cases payload :
  match fingerprint payload with
  | Some (c :: s) => rate_key payload = c :: s
  | Some [] | None => rate_key payload = lit "global"
  end.
Proof. unfold rate_key. destruct (fingerprint payload) as [[| c s] |]; reflexivity. Qed.

(** The handler, once the answer of [is_allowed] is known. *)
Lemma receive_error_denied payload w :
  let key := rate_key payload in
  let now1 := time_time env (clock_reads w) in
  let now2 := time_time env (S (clock_reads w)) in
  let rl1 := snd (is_allowed now1 key (rate_limiter w)) in
  let rl2 := snd (remaining now2 key rl1) in
  fst (is_allowed now1 key (rate_limiter w)) = false ->
  receive_error env payload w
  = (inl (mkHTTPException 429
            (RateLimitDetail
               (lit "Rate limit exceeded. Too many error reports.")
               (fst (remaining now2 key rl1))
               (fst (reset_time key rl2)))),
     mkWorld (snd (reset_time key rl2)) (S (S (clock_reads w)))
       (ids_drawn w) (posted w)).
Proof.
  cbv zeta. intros Hdeny.
  unfold receive_error, bind, on_limiter, read_clock, bind,
    limiter_reset_time, raise.
  cbn [fst snd clock_reads rate_limiter ids_drawn posted].
  destruct (is_allowed _ _ (rate_limiter w)) as [b r1] eqn:E1.
  cbn [fst snd] in *. subst b.
  cbn [fst snd clock_reads rate_limiter ids_drawn posted negb].
  destruct (remaining _ _ r1) as [rem r2] eqn:E2.
  cbn [fst snd clock_reads rate_limiter ids_drawn posted].
  destruct (reset_time _ r2) as [rst r3] eqn:E3. reflexivity.
Qed.

Lemma receive_error_allowed payload w :
  let key := rate_key payload in
  let now1 := time_time env (clock_reads w) in
  let id := token_hex env (ids_drawn w) in
  let text := _format_message (new_TelegramService (get_settings env))
                payload id in
  let w' := mkWorld (snd (is_allowed now1 key (rate_limiter w)))
              (S (clock_reads w)) (S (ids_drawn w)) (posted w ++ [text]) in
  fst (is_allowed now1 key (rate_limiter w)) = true ->
  receive_error env payload w
  = if post_ok (httpx_post env (length (posted w)) text) then
      (inr (mkWebhookResponse true
              (lit "Error notification delivered successfully") (Some id)),
       w')
    else
      (inl (mkHTTPException 502
              (TextDetail
                 (lit "Failed to deliver notification to Telegram. Check bot configuration."))),
       w').
Proof.
  cbv zeta. intros Hok.
  unfold receive_error, bind at 1, on_limiter, read_clock, bind at 1.
  cbn [fst snd clock_reads rate_limiter ids_drawn posted].
  destruct (is_allowed _ _ (rate_limiter w)) as [b r1] eqn:E1.
  cbn [fst snd] in *. subst b.
  cbn [fst snd clock_reads rate_limiter ids_drawn posted negb].
  unfold bind at 1, generate_error_id.
  cbn [fst snd clock_reads rate_limiter ids_drawn posted].
  unfold bind. rewrite send_error_notification_eq.
  cbn [fst snd clock_reads rate_limiter ids_drawn posted].
  destruct (post_ok _); reflexivity.
Qed.


(** C7.  For a record that [is_allowed] lets through, the handler ends in
    the 502, that is the [DeliveryFailed] outcome, when the post times out,
    when the reply has a status other than 200, and when the reply is a 200
    whose [ok] is false. *)
Theorem receive_error_delivery_failed (payload : ErrorPayload) (w : World) :
  let key := rate_key payload in
  let now1 := time_time env (clock_reads w) in
  let text := _format_message (new_TelegramService (get_settings env))
                payload (token_hex env (ids_drawn w)) in
  let reply := httpx_post env (length (posted w)) text in
  let failed :=
    DeliveryFailed
      (lit "Failed to deliver notification to Telegram. Check bot configuration.") in
  fst (is_allowed now1 key (rate_limiter w)) = true ->
  (reply = TimeoutException ->
     outcome (fst (receive_error env payload w)) = failed)
  /\ (forall status_code body,
        status_code <> 200%Z -> reply = Response status_code body ->
        outcome (fst (receive_error env payload w)) = failed)
  /\ (reply = Response 200 (Json false) ->
        outcome (fst (receive_error env payload w)) = failed).
Proof.
  cbv zeta. intros Hok.
  rewrite (receive_error_allowed payload w Hok).
  repeat split.
  - intros ->. reflexivity.
  - intros code body Hne ->. cbn [post_ok].
    destruct body as [| ok]; [reflexivity |].
    destruct (Z.eqb_spec code 200); [contradiction | reflexivity].
  - intros ->. reflexivity.
Qed.

Lemma test_notification_eq w :
  let now := utcnow env (clock_reads w) in
  let id := token_hex env (ids_drawn w) in
  let text := _format_message (new_TelegramService (get_settings env))
                (test_payload now) id in
  let w' := mkWorld (rate_limiter w) (S (clock_reads w)) (S (ids_drawn w))
              (posted w ++ [text]) in
  test_notification env w
  = if post_ok (httpx_post env (length (posted w)) text) then
      (inr (mkWebhookResponse true
              (lit "Test notification sent successfully! Check your Telegram.")
              (Some id)),
       w')
    else
      (inl (mkHTTPException 502
              (TextDetail
                 (lit "Failed to send test notification. Verify TELEGRAM_BOT_TOKEN and TELEGRAM_CHAT_ID."))),
       w').
Proof.
  cbv zeta.
  unfold test_notification, bind at 1, read_clock.
  cbn [fst snd clock_reads rate_limiter ids_drawn posted].
  unfold bind at 1, generate_error_id.
  cbn [fst snd clock_reads rate_limiter ids_drawn posted].
  unfold bind. rewrite send_error_notification_eq.
  cbn [fst snd clock_reads rate_limiter ids_drawn posted].
  destruct (post_ok _); reflexivity.
Qed.

(** C2, as the code has it.  The test operation builds its fixed record
    and hands it to the same [send_error_notification] as a report: it
    posts exactly one message, answers [Delivered] on a 200 with a true
    [ok] and [DeliveryFailed] on every other reply, and it never reads or
    changes the rate limiter. *)
Theorem test_notification_skips_rate_limit (w : World) :
  let now := utcnow env (clock_reads w) in
  let id := token_hex env (ids_drawn w) in
  let text := _format_message (new_TelegramService (get_settings env))
                (test_payload now) id in
  let reply := httpx_post env (length (posted w)) text in
  rate_limiter (snd (test_notification env w)) = rate_limiter w
  /\ posted (snd (test_notification env w)) = posted w ++ [text]
  /\ outcome (fst (test_notification env w))
     = if post_ok reply then Delivered id
       else DeliveryFailed
              (lit "Failed to send test notification. Verify TELEGRAM_BOT_TOKEN and TELEGRAM_CHAT_ID.").
Proof.
  cbv zeta. rewrite (test_notification_eq w).
  destruct (post_ok _); cbn [fst snd rate_limiter posted outcome error_id default];
    auto.
Qed.

End DispatchFacts.


Lemma receive_error_delivery_failed_witness :
  let payload := sample_payload (lit "boom") None None in
  let failed :=
    DeliveryFailed
      (lit "Failed to deliver notification to Telegram. Check bot configuration.") in
  outcome (fst (receive_error (sample_env 1 TimeoutException) payload
                  fresh_world)) = failed
  /\ outcome (fst (receive_error (sample_env 1 (Response 500 NotJson)) payload
                     fresh_world)) = failed
  /\ outcome (fst (receive_error (sample_env 1 (Response 200 (Json false)))
                     payload fresh_world)) = failed.
Proof.
  cbv zeta. split; [| split].
  - apply (proj1 (receive_error_delivery_failed
                    (sample_env 1 TimeoutException)
                    (sample_payload (lit "boom") None None) fresh_world
                    eq_refl)).
    reflexivity.
  - apply (proj1 (proj2 (receive_error_delivery_failed
                           (sample_env 1 (Response 500 NotJson))
                           (sample_payload (lit "boom") None None) fresh_world
                           eq_refl)) 500%Z NotJson).
    + discriminate.
    + reflexivity.
  - apply (proj2 (proj2 (receive_error_delivery_failed
                           (sample_env 1 (Response 200 (Json false)))
                           (sample_payload (lit "boom") None None) fresh_world
                           eq_refl))).
    reflexivity.
Defined.

(** C2, the claim refuted.  With the window of the key ["global"] used up
    ([is_allowed] would deny the test record), the test operation still
    posts its message and answers [Delivered]. *)
Lemma test_notification_delivers_when_exhausted :
  let env := sample_env 1 (Response 200 (Json true)) in
  let w := exhausted_world in
  fst (is_allowed (time_time env (clock_reads w))
         (rate_key (test_payload (utcnow env (clock_reads w))))
         (rate_limiter w)) = false
  /\ outcome (fst (test_notification env w)) = Delivered sample_id
  /\ length (posted (snd (test_notification env w))) = 1%nat
  /\ rate_limiter (snd (test_notification env w)) = rate_limiter w.
Proof. vm_compute. repeat split; reflexivity. Qed.

(* ================================================================== *)
(** * Properties of the formatter: size and truncation *)
(* ================================================================== *)

Section TruncationFacts.

Implicit Types (self : TelegramService) (payload : ErrorPayload)
  (id s sep : str) (parts : list str).

Lemma join_cons sep s parts :
  parts <> [] -> join sep (s :: parts) = s ++ sep ++ join sep parts.
Proof. destruct parts; [congruence | reflexivity]. Qed.

Lemma join_app sep (xs ys : list str) :
  xs <> [] -> ys <> [] ->
  join sep (xs ++ ys) = join sep xs ++ sep ++ join sep ys.
Proof.
  intros Hx Hy. induction xs as [| x xs IH]; [congruence |].
  destruct xs as [| x' xs].
  - cbn [app]. rewrite join_cons by assumption. reflexivity.
  - change ((x :: x' :: xs) ++ ys) with (x :: ((x' :: xs) ++ ys)).
    rewrite join_cons by discriminate.
    rewrite IH by discriminate.
    rewrite (join_cons sep x (x' :: xs)) by discriminate.
    rewrite <- !app_assoc. reflexivity.
Qed.

Lemma final_cut_short s :
  (Z.of_nat (length s) <= 4096)%Z -> final_cut s = s.
Proof.
  intros H. unfold final_cut.
  destruct (Z.ltb_spec 4096 (Z.of_nat (length s))); [lia | reflexivity].
Qed.

Lemma final_cut_long s :
  (4096 < Z.of_nat (length s))%Z ->
  final_cut s = firstn (Z.to_nat 4080) s ++ nl ++ nl ++ lit "... (truncated)".
Proof.
  intros H. unfold final_cut, slice_to.
  destruct (Z.ltb_spec 4096 (Z.of_nat (length s))); [reflexivity | lia].
Qed.

(** What the final ceiling yields: the text itself up to 4096 characters,
    and 4080 + 17 = 4097 characters beyond. *)
Lemma final_cut_length s :
  Z.of_nat (length (final_cut s))
  = if (4096 <? Z.of_nat (length s))%Z then 4097%Z
    else Z.of_nat (length s).
Proof.
  destruct (Z.ltb_spec 4096 (Z.of_nat (length s))) as [H | H].
  - rewrite final_cut_long by assumption.
    rewrite length_app, length_firstn.
    change (length (nl ++ nl ++ lit "... (truncated)")) with 17%nat. lia.
  - rewrite final_cut_short by assumption. reflexivity.
Qed.

Lemma format_message_length self payload id :
  (Z.of_nat (length (_format_message self payload id)) <= 4097)%Z.
Proof.
  unfold _format_message. rewrite final_cut_length.
  destruct (Z.ltb_spec 4096 (Z.of_nat (length (assembled self payload id))));
    lia.
Qed.

(** C1.  A report the validation lets through, with a message of 4000
    characters and a stack trace of 100, assembles to 4265 characters under
    the default ceilings; the formatter cuts it to 4080 and appends the 17
    characters of the marker, and returns 4097 characters, one over 4096. *)
Theorem format_message_exceeds_limit :
  let self := new_TelegramService sample_settings in
  let out := _format_message self long_payload sample_id in
  valid_payload long_payload = true
  /\ Z.of_nat (length (assembled self long_payload sample_id)) = 4265%Z
  /\ out = firstn (Z.to_nat 4080) (assembled self long_payload sample_id)
             ++ nl ++ nl ++ lit "... (truncated)"
  /\ Z.of_nat (length out) = 4097%Z.
Proof. vm_compute. repeat split; reflexivity. Qed.

(** ** Header and footer *)

(** [parts] is the header line, the body lines, and the lines of the
    footer; the ceilings of the service enter the body only. *)
Lemma message_parts_split self payload id :
  exists body : list str,
    body <> []
    /\ message_parts self payload id
       = header_line payload id
           :: body ++ (timestamp_line payload :: fingerprint_lines payload).
Proof.
  exists ([[]; message_line payload]
            ++ type_code_lines payload
            ++ location_lines payload
            ++ [[]]
            ++ titled_block (lit "<b>Application</b>") (app_lines payload)
            ++ match context payload with
               | Some ctx => titled_block (lit "<b>Request</b>") (ctx_lines ctx)
               | None => []
               end
            ++ match user payload with
               | Some u => titled_block (lit "<b>User</b>") (user_lines u)
               | None => []
               end
            ++ match device payload with
               | Some d => titled_block (lit "<b>Server</b>") (dev_lines d)
               | None => []
               end
            ++ tags_lines payload
            ++ metadata_lines self payload
            ++ stacktrace_lines self payload).
  split; [discriminate |].
  unfold message_parts. rewrite <- !app_assoc. reflexivity.
Qed.

Lemma assembled_split self payload id :
  exists body : str,
    assembled self payload id
    = header_line payload id ++ nl ++ body ++ nl ++ footer payload.
Proof.
  destruct (message_parts_split self payload id) as (body & Hne & E).
  exists (join nl body). unfold assembled, footer. rewrite E.
  rewrite join_cons by (destruct body; [congruence | discriminate]).
  rewrite join_app by (assumption || discriminate).
  reflexivity.
Qed.




End TruncationFacts.

(* ================================================================== *)
(** * Properties of the formatter: escaping *)
(* ================================================================== *)

Section EscapingFacts.

Implicit Types (self : TelegramService) (payload : ErrorPayload)
  (id s t sep : str) (parts : list str).

Abbreviation ok s := (markup_ok s = true).

(** ** The scanner *)

Lemma prefixb_app (p s t : str) :
  prefixb p s = true -> prefixb p (s ++ t) = true.
Proof.
  revert s. induction p as [| a p IH]; intros s H; [reflexivity |].
  destruct s as [| b s]; [discriminate |].
  cbn [prefixb app] in *. apply andb_true_iff in H as [H1 H2].
  rewrite H1, (IH s H2). reflexivity.
Qed.

Lemma starts_with_any_app (ps : list str) (s t : str) :
  starts_with_any ps s = true -> starts_with_any ps (s ++ t) = true.
Proof.
  unfold starts_with_any. rewrite !existsb_exists.
  intros (p & Hin & Hp). exists p. split; [assumption |].
  apply prefixb_app. assumption.
Qed.

Lemma scan_app (a b : str) :
  forall m, scan m a = true -> scan m (a ++ b) = scan false b.
Proof.
  induction a as [| c a IH]; intros m H.
  - destruct m; [discriminate | reflexivity].
  - cbn [scan app] in *. destruct m.
    + destruct (c =? 62)%N; [apply IH; assumption |].
      destruct ((c =? 60) || (c =? 38))%N; [discriminate |].
      apply IH; assumption.
    + destruct (c =? 60)%N.
      { apply andb_true_iff in H as [H1 H2].
        rewrite (starts_with_any_app _ _ _ H1), (IH _ H2). reflexivity. }
      destruct (c =? 38)%N.
      { apply andb_true_iff in H as [H1 H2].
        rewrite (starts_with_any_app _ _ _ H1), (IH _ H2). reflexivity. }
      destruct (c =? 62)%N; [discriminate |].
      apply IH; assumption.
Qed.

Lemma markup_ok_app (a b : str) : ok a -> ok b -> ok (a ++ b).
Proof.
  unfold markup_ok. intros Ha Hb. rewrite (scan_app a b false Ha). exact Hb.
Qed.

Lemma plainb_app (a b : str) : plainb (a ++ b) = plainb a && plainb b.
Proof. apply forallb_app. Qed.

Lemma plainb_ok s : plainb s = true -> ok s.
Proof.
  unfold markup_ok. induction s as [| c s IH]; [reflexivity |].
  cbn [plainb forallb scan]. fold (plainb s).
  destruct (c =? 38)%N, (c =? 60)%N, (c =? 62)%N;
    cbn [orb negb andb]; intros H; try discriminate.
  apply IH; assumption.
Qed.

Lemma join_ok sep parts :
  ok sep -> Forall (fun s => ok s) parts -> ok (join sep parts).
Proof.
  intros Hsep H. induction H as [| x parts Hx Hrest IH]; [reflexivity |].
  destruct parts as [| y parts]; [exact Hx |].
  rewrite join_cons by discriminate.
  apply markup_ok_app; [assumption |].
  apply markup_ok_app; assumption.
Qed.

(** ** [_escape] *)

Lemma replace1_app c (by_ a b : str) :
  replace1 c by_ (a ++ b) = replace1 c by_ a ++ replace1 c by_ b.
Proof. unfold replace1. apply flat_map_app. Qed.

(** The three replacements amount to one pass that writes each character
    in its escaped form. *)
Lemma escape_flat_map s : _escape s = flat_map escape_char s.
Proof.
  induction s as [| c s IH]; [reflexivity |].
  change (flat_map escape_char (c :: s))
    with (escape_char c ++ flat_map escape_char s).
  rewrite <- IH. unfold _escape.
  change (replace1 38 (lit "&amp;") (c :: s))
    with ((if (c =? 38)%N then lit "&amp;" else [c])
            ++ replace1 38 (lit "&amp;") s).
  rewrite !replace1_app. f_equal.
  unfold escape_char.
  destruct (c =? 38)%N eqn:E38; [reflexivity |].
  cbn [replace1 flat_map app].
  destruct (c =? 60)%N eqn:E60; [reflexivity |].
  cbn [replace1 flat_map app].
  destruct (c =? 62)%N eqn:E62; reflexivity.
Qed.

Lemma escape_char_ok c : ok (escape_char c).
Proof.
  unfold escape_char, markup_ok.
  destruct (c =? 38)%N eqn:E38; [reflexivity |].
  destruct (c =? 60)%N eqn:E60; [reflexivity |].
  destruct (c =? 62)%N eqn:E62; [reflexivity |].
  cbn [scan]. rewrite E38, E60, E62. reflexivity.
Qed.

Lemma escape_ok s : ok (_escape s).
Proof.
  rewrite escape_flat_map.
  induction s as [| c s IH]; [reflexivity |].
  cbn [flat_map]. apply markup_ok_app; [apply escape_char_ok | exact IH].
Qed.

(** ** Numbers and dates hold no markup character *)

Lemma lit_String a (s : string) : lit (String a s) = N_of_ascii a :: lit s.
Proof. reflexivity. Qed.

Lemma string_of_uint_plain (u : Decimal.uint) :
  plainb (lit (NilEmpty.string_of_uint u)) = true.
Proof.
  induction u; cbn [NilEmpty.string_of_uint]; try reflexivity;
    rewrite lit_String; cbn [plainb forallb]; exact IHu.
Qed.

Lemma str_of_Z_plain z : plainb (str_of_Z z) = true.
Proof.
  unfold str_of_Z, NilZero.string_of_int, NilZero.string_of_uint.
  destruct (Z.to_int z) as [u | u].
  - destruct u; try reflexivity; apply string_of_uint_plain.
  - rewrite lit_String. cbn [plainb forallb].
    destruct u; try reflexivity; apply string_of_uint_plain.
Qed.

Lemma zfill_plain w n : plainb (zfill w n) = true.
Proof.
  unfold zfill. rewrite plainb_app, str_of_Z_plain, andb_true_r.
  induction (w - length (str_of_Z (Z.of_nat n)))%nat as [| k IH];
    [reflexivity | exact IH].
Qed.

Lemma strftime_plain ts : plainb (strftime ts) = true.
Proof.
  unfold strftime. rewrite !plainb_app, !zfill_plain. reflexivity.
Qed.

Lemma format_1f_plain x : plainb (format_1f x) = true.
Proof.
  unfold format_1f. rewrite !plainb_app, !str_of_Z_plain.
  destruct (Qle_bool 0 x); reflexivity.
Qed.

(** ** The lines of the message *)

Ltac ok_step :=
  match goal with
  | |- markup_ok (_ ++ _) = true => apply markup_ok_app
  | |- markup_ok (_escape _) = true => apply escape_ok
  | |- markup_ok (lit _) = true => reflexivity
  | |- markup_ok nl = true => reflexivity
  | |- markup_ok [] = true => reflexivity
  | |- markup_ok (str_of_Z _) = true => apply plainb_ok, str_of_Z_plain
  | |- markup_ok (format_1f _) = true => apply plainb_ok, format_1f_plain
  | |- markup_ok (strftime _) = true => apply plainb_ok, strftime_plain
  end.

Ltac split_app :=
  match goal with
  | |- Forall _ (_ ++ _) => apply Forall_app; split
  end.

Ltac ok_lines :=
  repeat first
    [ apply List.Forall_nil
    | apply List.Forall_cons
    | split_app
    | progress (intros; cbv zeta)
    | ok_step ].

Lemma Forall_when_str (P : str -> Prop) (o : option str) (f : str -> str) :
  (forall s, P (f s)) -> Forall P (when_str o f).
Proof. intros H. destruct o as [[| c s] |]; simpl; auto. Qed.

Lemma Forall_when_some {A} (P : str -> Prop) (o : option A) (f : A -> str) :
  (forall a, P (f a)) -> Forall P (when_some o f).
Proof. intros H. destruct o; simpl; auto. Qed.

Lemma Forall_titled_block (P : str -> Prop) (title : str) (lines : list str) :
  P title -> P [] -> Forall P lines -> Forall P (titled_block title lines).
Proof.
  intros Ht Hnil H. destruct lines as [| x lines]; [constructor |].
  unfold titled_block. constructor; [assumption |].
  apply Forall_app. split; [assumption | auto].
Qed.

Ltac ok_block :=
  repeat first
    [ apply Forall_when_str
    | apply Forall_when_some
    | split_app
    | progress (intros; cbv zeta)
    | ok_step ].

Lemma header_line_ok payload id : plainb id = true -> ok (header_line payload id).
Proof.
  intros Hid. unfold header_line. cbv zeta.
  ok_lines; try (apply plainb_ok; assumption);
    destruct (severity payload); reflexivity.
Qed.

Lemma type_code_lines_ok payload :
  Forall (fun s => ok s) (type_code_lines payload).
Proof. unfold type_code_lines. ok_block. Qed.

Lemma location_lines_ok payload :
  Forall (fun s => ok s) (location_lines payload).
Proof. unfold location_lines. destruct (location_parts payload); ok_lines. Qed.

Lemma app_lines_ok payload : Forall (fun s => ok s) (app_lines payload).
Proof. unfold app_lines. ok_block. Qed.

Lemma ctx_lines_ok ctx : Forall (fun s => ok s) (ctx_lines ctx).
Proof.
  unfold ctx_lines. ok_block.
  - destruct (truthy (request_method ctx) && truthy (request_url ctx));
      [ok_lines | ok_block].
  - destruct (query_params ctx) as [[| kv items] |]; ok_lines.
Qed.

Lemma user_lines_ok u : Forall (fun s => ok s) (user_lines u).
Proof. unfold user_lines. ok_block. Qed.

Lemma resource_parts_ok d : Forall (fun s => ok s) (resource_parts d).
Proof. unfold resource_parts. ok_block. Qed.

Lemma dev_lines_ok d : Forall (fun s => ok s) (dev_lines d).
Proof.
  unfold dev_lines. ok_block.
  pose proof (resource_parts_ok d) as H.
  destruct (resource_parts d) as [| r rs]; [constructor |].
  ok_lines. apply join_ok; [reflexivity | exact H].
Qed.

Lemma tags_lines_ok payload : Forall (fun s => ok s) (tags_lines payload).
Proof.
  unfold tags_lines. destruct (tags payload) as [[| kv items] |]; ok_lines.
  apply join_ok; [reflexivity |].
  apply List.Forall_map, List.Forall_forall. intros x _. ok_lines.
Qed.

Lemma meta_str_full_ok items : ok (meta_str_full items).
Proof.
  unfold meta_str_full. apply join_ok; [reflexivity |].
  apply List.Forall_map, List.Forall_forall. intros [k v] _. ok_lines.
Qed.

Lemma metadata_lines_ok self payload :
  metadata_uncut self payload ->
  Forall (fun s => ok s) (metadata_lines self payload).
Proof.
  unfold metadata_uncut, metadata_lines.
  destruct (metadata payload) as [[| kv items] |]; intros H; ok_lines.
  unfold meta_str.
  destruct (Z.ltb_spec (max_metadata self)
              (Z.of_nat (length (meta_str_full (kv :: items))))); [lia |].
  apply meta_str_full_ok.
Qed.

Lemma stacktrace_lines_ok self payload :
  Forall (fun s => ok s) (stacktrace_lines self payload).
Proof.
  unfold stacktrace_lines.
  destruct (stacktrace payload) as [[| c trace] |]; ok_lines.
Qed.

Lemma fingerprint_lines_ok payload :
  Forall (fun s => ok s) (fingerprint_lines payload).
Proof. unfold fingerprint_lines. ok_block. Qed.

Lemma message_parts_ok self payload id :
  plainb id = true -> metadata_uncut self payload ->
  Forall (fun s => ok s) (message_parts self payload id).
Proof.
  intros Hid Hmeta. unfold message_parts.
  repeat split_app.
  - ok_lines. apply header_line_ok. assumption.
  - unfold message_line. ok_lines.
  - apply type_code_lines_ok.
  - apply location_lines_ok.
  - ok_lines.
  - apply Forall_titled_block; [reflexivity | reflexivity | apply app_lines_ok].
  - destruct (context payload); [| constructor].
    apply Forall_titled_block; [reflexivity | reflexivity | apply ctx_lines_ok].
  - destruct (user payload); [| constructor].
    apply Forall_titled_block; [reflexivity | reflexivity | apply user_lines_ok].
  - destruct (device payload); [| constructor].
    apply Forall_titled_block; [reflexivity | reflexivity | apply dev_lines_ok].
  - apply tags_lines_ok.
  - apply metadata_lines_ok. assumption.
  - apply stacktrace_lines_ok.
  - unfold timestamp_line. ok_lines.
  - apply fingerprint_lines_ok.
Qed.

Lemma message_parts_message_line self payload id :
  exists rest : list str,
    rest <> []
    /\ message_parts self payload id
       = header_line payload id :: [] :: message_line payload :: rest.
Proof.
  eexists. split; [| unfold message_parts; reflexivity].
  intros H.
  apply List.app_eq_nil in H as [_ H].
  apply List.app_eq_nil in H as [_ H].
  discriminate.
Qed.


(** The metadata ceiling is applied to the escaped text as well, unlike
    the ceiling of the stack trace: with the default 1000 a value of 300
    [<] is cut inside an [&lt;]. *)
Lemma metadata_cut_splits_escaped_form :
  let self := new_TelegramService sample_settings in
  let out := _format_message self meta_payload sample_id in
  out = assembled self meta_payload sample_id
  /\ contains (lit "&lt;&lt" ++ nl ++ lit "  ... (truncated)</pre>") out
     = true
  /\ markup_ok out = false.
Proof. vm_compute. repeat split; reflexivity. Qed.

End EscapingFacts.

(* ================================================================== *)
(** * Further properties of the rate limiter *)
(* ================================================================== *)

Section RateLimiterUse.

Implicit Types (self : RateLimiter) (key k : str) (l : list Q).

Lemma purge_idem θ l : purge θ (purge θ l) = purge θ l.
Proof. apply purge_purge. apply Qle_refl. Qed.

Lemma purge_Forall θ l : Forall (fun ts => (θ < ts)%Q) (purge θ l).
Proof.
  induction l as [| a l IH]; simpl; [constructor |].
  destruct (Qgtb a θ) eqn:E; [| exact IH].
  constructor; [apply Qgtb_true; exact E | exact IH].
Qed.

Lemma purge_all_kept θ l : Forall (fun ts => (θ < ts)%Q) l -> purge θ l = l.
Proof.
  induction 1 as [| a l Ha _ IH]; simpl; [reflexivity |].
  apply Qgtb_true in Ha. rewrite Ha, IH. reflexivity.
Qed.

Lemma purge_none θ l : Forall (fun ts => (ts <= θ)%Q) l -> purge θ l = [].
Proof.
  induction 1 as [| a l Ha _ IH]; simpl; [reflexivity |].
  apply Qgtb_false in Ha. rewrite Ha. exact IH.
Qed.

Lemma remaining_stored now key self :
  stored key (snd (remaining now key self))
  = purge (now - inject_Z (window_seconds self)) (stored key self).
Proof.
  rewrite remaining_eq. cbv zeta. simpl snd.
  rewrite stored_insert, decide_True by reflexivity. reflexivity.
Qed.

Lemma remaining_fst now key self :
  fst (remaining now key self)
  = Z.max 0 (max_requests self
             - Z.of_nat (length (purge (now - inject_Z (window_seconds self))
                                   (stored key self)))).
Proof. rewrite remaining_eq. reflexivity. Qed.

(** X1.  The quota [remaining] reports lies between 0 and the capacity,
    and [is_allowed] grants exactly when [remaining], asked at the same
    instant, is positive. *)
Theorem is_allowed_iff_remaining (now : Q) (key : str) (self : RateLimiter) :
  fst (is_allowed now key self) = (0 <? fst (remaining now key self))%Z
  /\ (0 <= fst (remaining now key self) <= Z.max 0 (max_requests self))%Z.
Proof.
  rewrite is_allowed_fst, remaining_fst. unfold key_step.
  set (n := Z.of_nat (length (purge _ (stored key self)))).
  assert (0 <= n)%Z by (subst n; lia).
  split; [| lia].
  destruct (Z.leb_spec (max_requests self) n); simpl;
    symmetry; [apply Z.ltb_ge | apply Z.ltb_lt]; lia.
Qed.

(** X2.  Reading [remaining] does not disturb the limiter: a later
    [is_allowed] on the same key gives the same answer and leaves the same
    limiter as it would have without the read. *)
Theorem remaining_then_is_allowed (now now' : Q) (key : str)
  (self : RateLimiter) :
  (now <= now')%Q ->
  is_allowed now' key (snd (remaining now key self))
  = is_allowed now' key self.
Proof.
  intros Hle. rewrite (is_allowed_eq now' key (snd (remaining now key self))).
  rewrite (is_allowed_eq now' key self).
  rewrite remaining_stored. rewrite remaining_eq. cbv zeta. simpl snd.
  unfold key_step. cbn [max_requests window_seconds with_requests _requests].
  rewrite purge_purge by lra.
  unfold with_requests. cbn [max_requests window_seconds _requests].
  rewrite insert_insert_eq. reflexivity.
Qed.

Lemma remaining_then_is_allowed_witness :
  is_allowed 5 (lit "k")
    (snd (remaining 1 (lit "k")
            (snd (is_allowed 0 (lit "k") (new_RateLimiter 2 60)))))
  = is_allowed 5 (lit "k")
      (snd (is_allowed 0 (lit "k") (new_RateLimiter 2 60))).
Proof.
  apply (remaining_then_is_allowed 1 5 (lit "k")
           (snd (is_allowed 0 (lit "k") (new_RateLimiter 2 60)))).
  unfold Qle. simpl. lia.
Defined.

(** X3.  With a positive window, a granted [is_allowed] lowers the quota
    [remaining] reports at that instant by exactly one, and a denied one
    leaves it as it was. *)
Theorem is_allowed_consumes_one (now : Q) (key : str) (self : RateLimiter) :
  (0 < window_seconds self)%Z ->
  fst (remaining now key (snd (is_allowed now key self)))
  = if fst (is_allowed now key self)
    then (fst (remaining now key self) - 1)%Z
    else fst (remaining now key self).
Proof.
  intros HW.
  assert (0 < inject_Z (window_seconds self))%Q as HWq.
  { change 0%Q with (inject_Z 0). rewrite <- Zlt_Qlt. exact HW. }
  rewrite (remaining_fst now key (snd (is_allowed now key self))).
  destruct (is_allowed_config now key self) as [-> ->].
  rewrite is_allowed_stored, is_allowed_fst, remaining_fst. unfold key_step.
  set (θ := (now - inject_Z (window_seconds self))%Q).
  destruct (Z.leb_spec (max_requests self)
              (Z.of_nat (length (purge θ (stored key self))))); simpl.
  - rewrite purge_idem. reflexivity.
  - rewrite purge_app, purge_idem. simpl.
    assert (Qgtb now θ = true) as ->
      by (apply Qgtb_true; subst θ; lra).
    rewrite length_app. simpl. lia.
Qed.

Lemma is_allowed_consumes_one_witness :
  fst (remaining 0 (lit "k")
         (snd (is_allowed 0 (lit "k") (new_RateLimiter 2 60)))) = 1%Z.
Proof.
  apply (is_allowed_consumes_one 0 (lit "k") (new_RateLimiter 2 60)).
  simpl. lia.
Defined.

(** X4.  Once the first timestamp stored for a key is a full window old
    ([t0 <= now - W]), an [is_allowed] on that key is granted, in every
    state the limiter can reach.  The condition is on [now - W], the bound
    the purge itself computes. *)
Theorem oldest_expired_then_allowed (N W : Z) (cs : list Call) (key : str)
  (now t0 : Q) (rest : list Q) :
  stored key (calls cs (new_RateLimiter N W)) = t0 :: rest ->
  (t0 <= now - inject_Z W)%Q ->
  fst (is_allowed now key (calls cs (new_RateLimiter N W))) = true.
Proof.
  intros Hst Hnow.
  destruct (calls_capped cs (new_RateLimiter N W) (capped_new N W))
    as (Hc & Hm & Hw).
  set (self := calls cs (new_RateLimiter N W)) in *. simpl in Hm, Hw.
  pose proof (capped_stored key self Hc) as Hlen.
  rewrite is_allowed_fst. unfold key_step.
  rewrite Hst in *. rewrite Hm, Hw in *.
  cbn [purge List.filter].
  assert (Qgtb t0 (now - inject_Z W) = false) as ->
    by (apply Qgtb_false; exact Hnow).
  pose proof (purge_length (now - inject_Z W) rest) as Hp.
  unfold purge in Hp. simpl in Hlen.
  destruct (Z.leb_spec N
              (Z.of_nat (length
                 (List.filter (fun ts => Qgtb ts (now - inject_Z W)) rest))));
    [lia | reflexivity].
Qed.

Lemma oldest_expired_then_allowed_witness :
  fst (is_allowed 61 (lit "k")
         (calls [IsAllowed 0 (lit "k"); IsAllowed 1 (lit "k")]
            (new_RateLimiter 2 60))) = true.
Proof.
  apply (oldest_expired_then_allowed 2 60
           [IsAllowed 0 (lit "k"); IsAllowed 1 (lit "k")] (lit "k") 61
           0 [1%Q]).
  - vm_compute. reflexivity.
  - vm_compute. discriminate.
Defined.

(** X5.  Right after [remaining], and with a positive window right after
    [is_allowed], every timestamp stored for the key is younger than the
    window: [now - W < ts]. *)
Theorem stored_inside_window (now : Q) (key : str) (self : RateLimiter) :
  Forall (fun ts => (now - inject_Z (window_seconds self) < ts)%Q)
    (stored key (snd (remaining now key self)))
  /\ ((0 < window_seconds self)%Z ->
      Forall (fun ts => (now - inject_Z (window_seconds self) < ts)%Q)
        (stored key (snd (is_allowed now key self)))).
Proof.
  split.
  - rewrite remaining_stored. apply purge_Forall.
  - intros HW.
    assert (0 < inject_Z (window_seconds self))%Q as HWq.
    { change 0%Q with (inject_Z 0). rewrite <- Zlt_Qlt. exact HW. }
    rewrite is_allowed_stored. unfold key_step.
    destruct (_ <=? _)%Z; simpl; [apply purge_Forall |].
    apply Forall_app. split; [apply purge_Forall |].
    constructor; [lra | constructor].
Qed.

Lemma stored_inside_window_witness :
  Forall (fun ts => (1 - inject_Z 60 < ts)%Q)
    (stored (lit "k") (snd (is_allowed 1 (lit "k") (new_RateLimiter 2 60)))).
Proof.
  apply (proj2 (stored_inside_window 1 (lit "k") (new_RateLimiter 2 60))).
  simpl. lia.
Defined.

Lemma call_stored_ne c k self :
  call_key c <> k -> stored k (call c self) = stored k self.
Proof.
  destruct c as [now key | now key | key]; simpl; intros Hne.
  - apply is_allowed_stored_ne. assumption.
  - rewrite remaining_eq. cbv zeta. simpl snd.
    rewrite stored_insert, decide_False by assumption. reflexivity.
  - apply reset_time_stored.
Qed.

(** X6.  Keys are independent: a call on one key changes neither what is
    stored for another key nor what [is_allowed], [remaining] and
    [reset_time] answer for it. *)
Theorem calls_on_other_keys (c : Call) (k : str) (now : Q)
  (self : RateLimiter) :
  call_key c <> k ->
  stored k (call c self) = stored k self
  /\ fst (is_allowed now k (call c self)) = fst (is_allowed now k self)
  /\ fst (remaining now k (call c self)) = fst (remaining now k self)
  /\ fst (reset_time k (call c self)) = fst (reset_time k self).
Proof.
  intros Hne. pose proof (call_stored_ne c k self Hne) as Hs.
  destruct (call_config c self) as [Hm Hw].
  rewrite !is_allowed_fst, !remaining_fst, !reset_time_reads_stored.
  rewrite Hs, Hm, Hw. auto.
Qed.

Lemma calls_on_other_keys_witness :
  let self := new_RateLimiter 1 60 in
  stored (lit "b") (call (IsAllowed 0 (lit "a")) self) = stored (lit "b") self
  /\ fst (is_allowed 0 (lit "b") (call (IsAllowed 0 (lit "a")) self))
     = fst (is_allowed 0 (lit "b") self)
  /\ fst (remaining 0 (lit "b") (call (IsAllowed 0 (lit "a")) self))
     = fst (remaining 0 (lit "b") self)
  /\ fst (reset_time (lit "b") (call (IsAllowed 0 (lit "a")) self))
     = fst (reset_time (lit "b") self).
Proof.
  apply (calls_on_other_keys (IsAllowed 0 (lit "a")) (lit "b") 0
           (new_RateLimiter 1 60)).
  vm_compute. discriminate.
Defined.

(** X7.  [reset_time] is a pure read: it answers from the first stored
    timestamp of the key and leaves the list stored for every key, that
    key included, as it was. *)
Theorem reset_time_read_only (key k : str) (self : RateLimiter) :
  stored k (snd (reset_time key self)) = stored k self
  /\ max_requests (snd (reset_time key self)) = max_requests self
  /\ window_seconds (snd (reset_time key self)) = window_seconds self
  /\ fst (reset_time key (snd (reset_time key self)))
     = fst (reset_time key self).
Proof.
  rewrite !reset_time_reads_stored, !reset_time_stored.
  rewrite reset_time_eq. auto.
Qed.

(** ** Bursts *)

Lemma map_ltb_full (N : Z) (k a n : nat) :
  (N <= Z.of_nat k)%Z ->
  List.map (fun i => (Z.of_nat (k + i) <? N)%Z) (seq a n) = repeat false n.
Proof.
  intros H. revert a. induction n as [| n IH]; intros a; simpl; [reflexivity |].
  rewrite IH. f_equal. apply Z.ltb_ge. lia.
Qed.

Lemma is_allowed_seq_burst (N W : Z) (T : Q) key :
  forall times self,
    max_requests self = N -> window_seconds self = W ->
    Forall (fun t => in_window W T t = true) times ->
    Forall (fun a => (T - inject_Z W < a)%Q) (stored key self) ->
    fst (is_allowed_seq key times self)
    = List.map
        (fun i => (Z.of_nat (length (stored key self) + i) <? N)%Z)
        (seq 0 (length times)).
Proof.
  induction times as [| now rest IH]; intros self HN HW Htimes Hst;
    [reflexivity |].
  apply List.Forall_cons_iff in Htimes as [Hnow Hrest].
  unfold in_window in Hnow. apply andb_true_iff in Hnow as [Hlo Hhi].
  apply Qgtb_true in Hlo. apply Qle_bool_iff in Hhi.
  cbn [is_allowed_seq].
  destruct (is_allowed now key self) as [b self1] eqn:E.
  destruct (is_allowed_seq key rest self1) as [bs self2] eqn:Es.
  pose proof (is_allowed_fst now key self) as Hb.
  pose proof (is_allowed_stored now key self) as Hs1.
  destruct (is_allowed_config now key self) as [Hc1 Hc2].
  rewrite E in Hb, Hs1, Hc1, Hc2. cbn [fst snd] in Hb, Hs1, Hc1, Hc2.
  rewrite HN, HW in *. unfold key_step in Hb, Hs1.
  assert (purge (now - inject_Z W) (stored key self) = stored key self) as Hp.
  { apply purge_all_kept. eapply List.Forall_impl; [| exact Hst].
    intros a Ha. simpl in *. lra. }
  rewrite Hp in Hb, Hs1.
  specialize (IH self1 Hc1 Hc2 Hrest). rewrite Es in IH. cbn [fst] in IH.
  cbn [fst length seq List.map]. rewrite Nat.add_0_r.
  destruct (Z.leb_spec N (Z.of_nat (length (stored key self))))
    as [Hfull | Hroom]; cbn [fst snd] in Hb, Hs1; subst b.
  - rewrite Hs1 in IH. rewrite (IH Hst).
    rewrite (proj2 (Z.ltb_ge _ _) Hfull).
    rewrite !map_ltb_full by assumption. reflexivity.
  - rewrite (proj2 (Z.ltb_lt _ _) Hroom). f_equal.
    rewrite IH.
    + rewrite Hs1, length_app. cbn [length].
      rewrite <- seq_shift, List.map_map.
      apply List.map_ext. intros i. f_equal. lia.
    + rewrite Hs1. apply Forall_app. split; [assumption |].
      constructor; [assumption | constructor].
Qed.

(** X8.  The limiter does not hold back more than it must: of the calls
    of a burst, all made inside one window [(T - W, T]] on a fresh
    limiter, exactly the first [N] are granted and every later one is
    denied. *)
Theorem burst_grants_first_N (N W : Z) (T : Q) (key : str) (times : list Q) :
  Forall (fun t => in_window W T t = true) times ->
  fst (is_allowed_seq key times (new_RateLimiter N W))
  = List.map (fun i => (Z.of_nat i <? N)%Z) (seq 0 (length times)).
Proof.
  intros H.
  rewrite (is_allowed_seq_burst N W T key times (new_RateLimiter N W));
    auto.
Qed.

Lemma burst_grants_first_N_witness :
  fst (is_allowed_seq (lit "k") [0%Q; 30%Q; 5%Q; 59%Q] (new_RateLimiter 2 60))
  = [true; true; false; false].
Proof.
  apply (burst_grants_first_N 2 60 59 (lit "k") [0%Q; 30%Q; 5%Q; 59%Q]).
  repeat constructor.
Defined.

(** X9.  A window of zero seconds, or a negative one, switches the limit
    off: with a capacity of at least one and a clock that never runs
    backwards, every call on a fresh limiter is granted. *)
Theorem empty_window_never_limits (N W : Z) (key : str) (times : list Q) :
  (0 < N)%Z -> (W <= 0)%Z -> nondecreasing times ->
  fst (is_allowed_seq key times (new_RateLimiter N W))
  = repeat true (length times).
Proof.
  intros HN HW.
  assert (inject_Z W <= 0)%Q as HWq.
  { change 0%Q with (inject_Z 0). rewrite <- Zle_Qle. exact HW. }
  assert (forall times self,
             max_requests self = N -> window_seconds self = W ->
             nondecreasing times ->
             match times with
             | [] => True
             | t :: _ => Forall (fun a => (a <= t)%Q) (stored key self)
             end ->
             fst (is_allowed_seq key times self) = repeat true (length times))
    as Hgen.
  { clear times. induction times as [| now rest IH];
      intros self Hm Hw Hnd Hst; [reflexivity |].
    destruct Hnd as [Hhd Hnd]. cbn [is_allowed_seq].
    destruct (is_allowed now key self) as [b self1] eqn:E.
    destruct (is_allowed_seq key rest self1) as [bs self2] eqn:Es.
    pose proof (is_allowed_fst now key self) as Hb.
    pose proof (is_allowed_stored now key self) as Hs1.
    destruct (is_allowed_config now key self) as [Hc1 Hc2].
    rewrite E in Hb, Hs1, Hc1, Hc2. cbn [fst snd] in Hb, Hs1, Hc1, Hc2.
    rewrite Hm, Hw in *. unfold key_step in Hb, Hs1.
    assert (purge (now - inject_Z W) (stored key self) = []) as Hp.
    { apply purge_none. eapply List.Forall_impl; [| exact Hst].
      intros a Ha. simpl in *. lra. }
    rewrite Hp in Hb, Hs1. cbn [length] in Hb, Hs1.
    assert ((N <=? Z.of_nat 0)%Z = false) as HleN by (apply Z.leb_gt; lia).
    rewrite HleN in Hb, Hs1. cbn [fst snd app] in Hb, Hs1. subst b.
    cbn [fst length repeat]. f_equal.
    specialize (IH self1 Hc1 Hc2 Hnd). rewrite Es in IH. apply IH.
    destruct rest as [| t rest]; [exact I |].
    rewrite Hs1. constructor; [exact Hhd | constructor]. }
  intros Hnd. apply Hgen; auto.
  destruct times; [exact I | constructor].
Qed.

Lemma empty_window_never_limits_witness :
  fst (is_allowed_seq (lit "k") [0%Q; 0%Q; 1%Q] (new_RateLimiter 1 0))
  = [true; true; true].
Proof.
  apply (empty_window_never_limits 1 0 (lit "k") [0%Q; 0%Q; 1%Q]).
  - lia.
  - lia.
  - simpl. repeat split; unfold Qle; simpl; lia.
Defined.

(** ** The order of the stored timestamps *)

Lemma nondecreasing_head a l :
  nondecreasing (a :: l) -> Forall (fun b => (a <= b)%Q) l.
Proof.
  revert a. induction l as [| b l IH]; intros a H; [constructor |].
  destruct H as [Hab Hl]. constructor; [exact Hab |].
  eapply List.Forall_impl; [| apply IH; exact Hl].
  intros c Hc. simpl in *. lra.
Qed.

Lemma nondecreasing_of_head a l :
  Forall (fun b => (a <= b)%Q) l -> nondecreasing l -> nondecreasing (a :: l).
Proof.
  intros Hall Hl. split; [| exact Hl].
  destruct l as [| b l]; [exact I |].
  apply List.Forall_cons_iff in Hall as [H _]. exact H.
Qed.

Lemma nondecreasing_tail a l : nondecreasing (a :: l) -> nondecreasing l.
Proof. intros [_ H]. exact H. Qed.

Lemma purge_subset θ l (P : Q -> Prop) : Forall P l -> Forall P (purge θ l).
Proof.
  induction 1 as [| a l Ha _ IH]; simpl; [constructor |].
  destruct (Qgtb a θ); [constructor; assumption | exact IH].
Qed.

Lemma nondecreasing_purge θ l : nondecreasing l -> nondecreasing (purge θ l).
Proof.
  induction l as [| a l IH]; intros H; [exact I |].
  pose proof (nondecreasing_head a l H) as Hall.
  apply nondecreasing_tail in H. cbn [purge List.filter].
  destruct (Qgtb a θ); [| apply IH; exact H].
  apply nondecreasing_of_head; [apply purge_subset; exact Hall |].
  apply IH; exact H.
Qed.

Lemma nondecreasing_snoc l x :
  nondecreasing l -> Forall (fun a => (a <= x)%Q) l ->
  nondecreasing (l ++ [x]).
Proof.
  induction l as [| a l IH]; intros Hl Hx; [simpl; auto |].
  apply List.Forall_cons_iff in Hx as [Hax Hx].
  pose proof (nondecreasing_head a l Hl) as Hall.
  apply nondecreasing_tail in Hl.
  change ((a :: l) ++ [x]) with (a :: (l ++ [x])).
  apply nondecreasing_of_head; [| apply IH; assumption].
  apply Forall_app. split; [exact Hall | constructor; [exact Hax | constructor]].
Qed.

Lemma timeline_later τ τ' self :
  (τ <= τ')%Q -> timeline τ self -> timeline τ' self.
Proof.
  intros Hle H k. destruct (H k) as [H1 H2]. split; [exact H1 |].
  eapply List.Forall_impl; [| exact H2]. intros a Ha. simpl in *. lra.
Qed.

Lemma timeline_call τ c self :
  timeline τ self ->
  match call_time c with
  | [] => timeline τ (call c self)
  | now :: _ => (τ <= now)%Q -> timeline now (call c self)
  end.
Proof.
  intros H.
  destruct c as [now key | now key | key]; cbn [call_time].
  - intros Hle k. destruct (decide (key = k)) as [<- | Hne].
    + destruct (H key) as [H1 H2].
      cbn [call]. rewrite is_allowed_stored. unfold key_step.
      set (θ := (now - inject_Z (window_seconds self))%Q).
      assert (Forall (fun ts => (ts <= now)%Q) (purge θ (stored key self)))
        as Hb.
      { apply purge_subset. eapply List.Forall_impl; [| exact H2].
        intros a Ha. simpl in *. lra. }
      destruct (_ <=? _)%Z; cbn [snd].
      * split; [apply nondecreasing_purge; exact H1 | exact Hb].
      * split.
        -- apply nondecreasing_snoc; [apply nondecreasing_purge; exact H1 |].
           exact Hb.
        -- apply Forall_app. split; [exact Hb |].
           constructor; [apply Qle_refl | constructor].
    + rewrite (call_stored_ne (IsAllowed now key) k self Hne).
      apply (timeline_later τ now self Hle H).
  - intros Hle k. destruct (decide (key = k)) as [<- | Hne].
    + destruct (H key) as [H1 H2].
      cbn [call]. rewrite remaining_stored.
      split; [apply nondecreasing_purge; exact H1 |].
      apply purge_subset. eapply List.Forall_impl; [| exact H2].
      intros a Ha. simpl in *. lra.
    + rewrite (call_stored_ne (Remaining now key) k self Hne).
      apply (timeline_later τ now self Hle H).
  - intros k. cbn [call]. rewrite reset_time_stored. apply H.
Qed.

Lemma calls_timeline cs :
  forall τ self,
    timeline τ self -> nondecreasing (τ :: call_times cs) ->
    exists τ', timeline τ' (calls cs self).
Proof.
  induction cs as [| c cs IH]; intros τ self H Hnd; [exists τ; exact H |].
  pose proof (timeline_call τ c self H) as Hc.
  unfold call_times in Hnd. cbn [flat_map] in Hnd.
  change (calls (c :: cs) self) with (calls cs (call c self)).
  destruct (call_time c) as [| now l] eqn:E.
  - apply (IH τ (call c self) Hc Hnd).
  - assert (l = []) as -> by (destruct c; inversion E; reflexivity).
    cbn [app] in Hnd. destruct Hnd as [Hle Hnd].
    apply (IH now (call c self) (Hc Hle) Hnd).
Qed.

(** X10.  With a clock that never runs backwards the timestamps of a key
    are stored oldest first, so the time [reset_time] answers is the
    earliest at which any stored timestamp leaves the window. *)
Theorem reset_time_is_earliest (N W : Z) (cs : list Call) (key : str)
  (r : Q) :
  nondecreasing (call_times cs) ->
  fst (reset_time key (calls cs (new_RateLimiter N W))) = Some r ->
  nondecreasing (stored key (calls cs (new_RateLimiter N W)))
  /\ Forall (fun ts => (r <= ts + inject_Z W)%Q)
       (stored key (calls cs (new_RateLimiter N W))).
Proof.
  intros Hnd Hr.
  destruct (calls_timeline cs
              (match call_times cs with [] => 0 | t :: _ => t end)%Q
              (new_RateLimiter N W)) as [τ' Ht].
  { intros k. unfold stored. simpl. rewrite lookup_empty. simpl.
    split; [exact I | constructor]. }
  { destruct (call_times cs) as [| t l]; [simpl; auto |].
    split; [apply Qle_refl | exact Hnd]. }
  destruct (calls_capped cs (new_RateLimiter N W) (capped_new N W))
    as (_ & _ & Hw). simpl in Hw.
  destruct (Ht key) as [Hs _]. split; [exact Hs |].
  rewrite reset_time_reads_stored, Hw in Hr.
  destruct (stored key (calls cs (new_RateLimiter N W))) as [| t0 rest];
    [discriminate |].
  injection Hr as <-.
  constructor; [apply Qle_refl |].
  eapply List.Forall_impl; [| apply nondecreasing_head; exact Hs].
  intros a Ha. simpl in *. lra.
Qed.

Lemma reset_time_is_earliest_witness :
  let self := calls [IsAllowed 3 (lit "k"); Remaining 4 (lit "j");
                     IsAllowed 7 (lit "k")] (new_RateLimiter 5 60) in
  nondecreasing (stored (lit "k") self)
  /\ Forall (fun ts => (3 + inject_Z 60 <= ts + inject_Z 60)%Q)
       (stored (lit "k") self).
Proof.
  apply (reset_time_is_earliest 5 60
           [IsAllowed 3 (lit "k"); Remaining 4 (lit "j");
            IsAllowed 7 (lit "k")] (lit "k") (3 + inject_Z 60)%Q).
  - simpl. repeat split; unfold Qle; simpl; lia.
  - vm_compute. reflexivity.
Defined.

End RateLimiterUse.

(* ================================================================== *)
(** * Further properties of the formatter *)
(* ================================================================== *)

Section FormatterUse.

Implicit Types (self : TelegramService) (payload : ErrorPayload)
  (id s t : str).

Lemma escape_app s t : _escape (s ++ t) = _escape s ++ _escape t.
Proof. rewrite !escape_flat_map. apply flat_map_app. Qed.

Lemma escape_char_cases (c : N) :
  (c = 38%N /\ escape_char c = lit "&amp;")
  \/ (c = 60%N /\ escape_char c = lit "&lt;")
  \/ (c = 62%N /\ escape_char c = lit "&gt;")
  \/ (c <> 38%N /\ c <> 60%N /\ c <> 62%N /\ escape_char c = [c]).
Proof.
  unfold escape_char.
  destruct (N.eqb_spec c 38) as [-> | H38]; [auto |].
  destruct (N.eqb_spec c 60) as [-> | H60]; [auto |].
  destruct (N.eqb_spec c 62) as [-> | H62]; [auto 6 |].
  auto 10.
Qed.

Lemma escape_plain s : plainb s = true -> _escape s = s.
Proof.
  rewrite escape_flat_map. induction s as [| c s IH]; [reflexivity |].
  cbn [plainb forallb flat_map]. fold (plainb s).
  intros H. apply andb_true_iff in H as [Hc H]. rewrite (IH H).
  unfold escape_char.
  destruct (c =? 38)%N, (c =? 60)%N, (c =? 62)%N; try discriminate;
    reflexivity.
Qed.

(** X11.  [_escape] leaves no [<] and no [>] in its result, keeps a text
    without markup characters as it is, works through a text piece by
    piece, and makes it at least as long and at most five times as long. *)
Theorem escape_result (s t : str) :
  Forall (fun c => c <> 60%N /\ c <> 62%N) (_escape s)
  /\ (plainb s = true -> _escape s = s)
  /\ _escape (s ++ t) = _escape s ++ _escape t
  /\ (length s <= length (_escape s) <= 5 * length s)%nat.
Proof.
  split; [| split; [apply escape_plain | split; [apply escape_app |]]].
  - rewrite escape_flat_map. induction s as [| c s IH]; [constructor |].
    cbn [flat_map]. apply Forall_app. split; [| exact IH].
    destruct (escape_char_cases c)
      as [[-> ->] | [[-> ->] | [[-> ->] | (H1 & H2 & H3 & ->)]]];
      repeat constructor; try discriminate; assumption.
  - rewrite escape_flat_map. induction s as [| c s IH]; [simpl; lia |].
    cbn [flat_map]. rewrite length_app. cbn [length].
    assert (1 <= length (escape_char c) <= 5)%nat.
    { destruct (escape_char_cases c)
        as [[_ ->] | [[_ ->] | [[_ ->] | (_ & _ & _ & ->)]]]; simpl; lia. }
    lia.
Qed.

Lemma escape_result_witness : _escape (lit "a-b") = lit "a-b".
Proof.
  apply (proj1 (proj2 (escape_result (lit "a-b") []))). reflexivity.
Defined.

Lemma unescape_escape s : unescape (_escape s) = s.
Proof.
  unfold unescape. rewrite escape_flat_map.
  induction s as [| c s IH]; [reflexivity |].
  cbn [flat_map].
  destruct (escape_char_cases c)
    as [[-> ->] | [[-> ->] | [[-> ->] | (H1 & _ & _ & ->)]]].
  - cbn. rewrite IH. reflexivity.
  - cbn. rewrite IH. reflexivity.
  - cbn. rewrite IH. reflexivity.
  - cbn [app unescape_from].
    destruct (N.eqb_spec c 38) as [E | _]; [contradiction |].
    rewrite IH. reflexivity.
Qed.

(** X12.  Escaping loses nothing: reading the three escaped forms back
    returns the text that was escaped, so two different texts are never
    escaped to the same one. *)
Theorem escape_injective (s t : str) :
  unescape (_escape s) = s
  /\ (_escape s = _escape t -> s = t).
Proof.
  split; [apply unescape_escape |].
  intros H. rewrite <- (unescape_escape s), <- (unescape_escape t), H.
  reflexivity.
Qed.

Lemma escape_injective_witness : lit "a&b" = lit "a&b".
Proof.
  apply (proj2 (escape_injective (lit "a&b") (lit "a&b"))). reflexivity.
Defined.

(** X13.  A stack trace longer than a ceiling [max_stacktrace >= 0] is
    shown as exactly its first [max_stacktrace] characters, escaped,
    followed by the marker; a trace within the ceiling is shown whole. *)
Theorem stacktrace_block (self : TelegramService) (payload : ErrorPayload)
  (c : N) (trace : str) :
  stacktrace payload = Some (c :: trace) ->
  (0 <= max_stacktrace self)%Z ->
  stacktrace_lines self payload
  = [lit "<b>Stacktrace</b>";
     lit "<pre>"
       ++ (if (max_stacktrace self <? Z.of_nat (length (c :: trace)))%Z
           then _escape (firstn (Z.to_nat (max_stacktrace self)) (c :: trace))
                  ++ nl ++ lit "... (truncated)"
           else _escape (c :: trace))
       ++ lit "</pre>";
     []]
  /\ ((max_stacktrace self <? Z.of_nat (length (c :: trace)))%Z = true ->
      length (firstn (Z.to_nat (max_stacktrace self)) (c :: trace))
      = Z.to_nat (max_stacktrace self)).
Proof.
  intros Hs Hmax. split.
  - unfold stacktrace_lines, trace_cut, slice_to. rewrite Hs.
    destruct (Z.ltb_spec (max_stacktrace self) 0); [lia |].
    destruct (max_stacktrace self <? Z.of_nat (length (c :: trace)))%Z;
      [| reflexivity].
    rewrite escape_app.
    rewrite (escape_plain (nl ++ lit "... (truncated)")) by reflexivity.
    rewrite <- !app_assoc. reflexivity.
  - intros Hlt. apply Z.ltb_lt in Hlt. apply firstn_length_le. lia.
Qed.

Lemma stacktrace_block_witness :
  stacktrace_lines (mkTelegramService [] [] 3 1000)
    (sample_payload (lit "boom") (Some (lit "a<bcd")) None)
  = [lit "<b>Stacktrace</b>";
     lit "<pre>" ++ (lit "a&lt;b" ++ nl ++ lit "... (truncated)")
       ++ lit "</pre>";
     []].
Proof.
  apply (proj1 (stacktrace_block (mkTelegramService [] [] 3 1000)
                  (sample_payload (lit "boom") (Some (lit "a<bcd")) None)
                  97%N (lit "<bcd") eq_refl ltac:(simpl; lia))).
Defined.

(** X14.  A negative stack-trace ceiling cuts from the end: the trace
    loses its last [-max_stacktrace] characters (all of them when it has
    no more than that) and always gets the marker. *)
Theorem stacktrace_negative_ceiling (self : TelegramService) (trace : str) :
  (max_stacktrace self < 0)%Z ->
  trace_cut self trace
  = firstn (length trace - Z.to_nat (- max_stacktrace self)) trace
      ++ nl ++ lit "... (truncated)".
Proof.
  intros Hneg. unfold trace_cut, slice_to.
  destruct (Z.ltb_spec (max_stacktrace self) (Z.of_nat (length trace)));
    [| lia].
  destruct (Z.ltb_spec (max_stacktrace self) 0); [| lia].
  f_equal. f_equal. lia.
Qed.

Lemma stacktrace_negative_ceiling_witness :
  trace_cut (mkTelegramService [] [] (-2) 1000) (lit "abcde")
  = lit "abc" ++ nl ++ lit "... (truncated)".
Proof.
  apply (stacktrace_negative_ceiling (mkTelegramService [] [] (-2) 1000)
           (lit "abcde")).
  simpl. lia.
Defined.

Lemma metadata_lines_firstn self payload items :
  metadata payload = Some items ->
  metadata_lines self (set_metadata payload (Some (firstn 20 items)))
  = metadata_lines self payload.
Proof.
  intros H. unfold metadata_lines, meta_str, meta_str_full.
  cbn [metadata set_metadata]. rewrite H.
  destruct items as [| kv items]; [reflexivity |].
  change (firstn 20 (kv :: items)) with (kv :: firstn 19 items).
  change (kv :: firstn 19 items) with (firstn 20 (kv :: items)).
  rewrite firstn_firstn. reflexivity.
Qed.

(** X15.  Only the first 20 entries of [metadata] are ever shown: the
    message of a record is the message of the record with its metadata cut
    to its first 20 entries. *)
Theorem metadata_beyond_20_ignored (self : TelegramService)
  (payload : ErrorPayload) (id : str) (items : list (str * Any)) :
  metadata payload = Some items ->
  _format_message self (set_metadata payload (Some (firstn 20 items))) id
  = _format_message self payload id.
Proof.
  intros H. unfold _format_message, assembled, message_parts.
  rewrite (metadata_lines_firstn self payload items H). reflexivity.
Qed.

Lemma metadata_beyond_20_ignored_witness :
  let items := repeat (lit "k", AInt 1) 25 in
  let payload := set_metadata (sample_payload (lit "boom") None None)
                   (Some items) in
  _format_message (new_TelegramService sample_settings)
    (set_metadata payload (Some (firstn 20 items))) sample_id
  = _format_message (new_TelegramService sample_settings) payload sample_id.
Proof.
  apply (metadata_beyond_20_ignored (new_TelegramService sample_settings)
           (set_metadata (sample_payload (lit "boom") None None)
              (Some (repeat (lit "k", AInt 1) 25)))
           sample_id (repeat (lit "k", AInt 1) 25)).
  reflexivity.
Defined.

(** ** Empty optional fields *)

Lemma when_str_blank (o : option str) (f : str -> str) :
  when_str (blank o) f = when_str o f.
Proof. destruct o as [[| c s] |]; reflexivity. Qed.

Lemma truthy_blank (o : option str) : truthy (blank o) = truthy o.
Proof. destruct o as [[| c s] |]; reflexivity. Qed.

Lemma default_blank (o : option str) : default [] (blank o) = default [] o.
Proof. destruct o as [[| c s] |]; reflexivity. Qed.

Lemma ctx_lines_blank c : ctx_lines (blank_context c) = ctx_lines c.
Proof.
  unfold ctx_lines.
  cbn [request_url request_method response_status query_params blank_context].
  rewrite !truthy_blank, !default_blank, !when_str_blank.
  destruct (query_params c) as [[| kv items] |]; reflexivity.
Qed.

Lemma user_lines_blank u : user_lines (blank_user u) = user_lines u.
Proof.
  unfold user_lines.
  cbn [user_id username email session_id user_ip_address blank_user].
  rewrite !when_str_blank. reflexivity.
Qed.

Lemma dev_lines_blank d : dev_lines (blank_device d) = dev_lines d.
Proof.
  unfold dev_lines, resource_parts.
  cbn [hostname os os_version device_ip_address architecture cpu_usage
       memory_usage disk_usage blank_device].
  rewrite !when_str_blank, !truthy_blank, !default_blank. reflexivity.
Qed.

Lemma message_parts_blank self payload id :
  message_parts self (blank_payload payload) id
  = message_parts self payload id.
Proof.
  unfold message_parts, type_code_lines, location_lines, location_parts,
    app_lines, tags_lines, metadata_lines, stacktrace_lines,
    fingerprint_lines, header_line, message_line, timestamp_line.
  cbn [error_message severity error_type error_code stacktrace file_name
       line_number function_name app_name app_version environment
       service_name component context user device tags metadata timestamp
       fingerprint blank_payload].
  rewrite !when_str_blank.
  destruct (context payload) as [c |]; cbn [option_map];
    rewrite ?ctx_lines_blank;
    (destruct (user payload) as [u |]; cbn [option_map];
     rewrite ?user_lines_blank);
    (destruct (device payload) as [d |]; cbn [option_map];
     rewrite ?dev_lines_blank);
    destruct (tags payload) as [[| kv1 t1] |];
    destruct (metadata payload) as [[| kv2 t2] |];
    destruct (stacktrace payload) as [[| c3 t3] |]; reflexivity.
Qed.

(** X16.  An optional text that is present but empty, and an empty
    [tags], [metadata] or [query_params], is treated exactly as a missing
    one: the record formats to the same message, and is rate limited under
    the same key, as the record with those fields taken out. *)
Theorem empty_fields_as_absent (self : TelegramService)
  (payload : ErrorPayload) (id : str) :
  _format_message self (blank_payload payload) id
  = _format_message self payload id
  /\ rate_key (blank_payload payload) = rate_key payload.
Proof.
  split.
  - unfold _format_message, assembled. rewrite message_parts_blank.
    reflexivity.
  - unfold rate_key. cbn [fingerprint blank_payload].
    destruct (fingerprint payload) as [[| c s] |]; reflexivity.
Qed.

(** X17.  A record that has the required fields only is shown as five
    lines and nothing else: the header, an empty line, the message line,
    an empty line, the timestamp line. *)
Theorem required_only_layout (self : TelegramService) (msg : str)
  (sev : ErrorSeverity) (ts : datetime) (id : str) :
  message_parts self (required_only msg sev ts) id
  = [header_line (required_only msg sev ts) id;
     [];
     lit "<b>Message:</b> " ++ _escape msg;
     [];
     lit "<i>" ++ strftime ts ++ lit "</i>"]
  /\ assembled self (required_only msg sev ts) id
     = header_line (required_only msg sev ts) id ++ nl ++ nl
         ++ lit "<b>Message:</b> " ++ _escape msg ++ nl ++ nl
         ++ lit "<i>" ++ strftime ts ++ lit "</i>".
Proof.
  split; [reflexivity |].
  unfold assembled.
  change (message_parts self (required_only msg sev ts) id)
    with [header_line (required_only msg sev ts) id;
          [];
          lit "<b>Message:</b> " ++ _escape msg;
          [];
          lit "<i>" ++ strftime ts ++ lit "</i>"].
  cbn [join]. rewrite <- !app_assoc. reflexivity.
Qed.

(** X18.  The severity tables cover the four severities: the default
    badge and the default label are never used, and the label in the
    header tells the severity. *)
Theorem severity_tables_total (sev sev' : ErrorSeverity) (d d' : str) :
  dict_get SEVERITY_EMOJI sev d = dict_get SEVERITY_EMOJI sev d'
  /\ dict_get SEVERITY_LABEL sev d = dict_get SEVERITY_LABEL sev d'
  /\ (dict_get SEVERITY_LABEL sev d = dict_get SEVERITY_LABEL sev' d ->
      sev = sev')
  /\ (dict_get SEVERITY_EMOJI sev d = dict_get SEVERITY_EMOJI sev' d ->
      sev = sev').
Proof.
  repeat split; try (destruct sev; reflexivity);
    destruct sev, sev'; cbn; intros H; try reflexivity; discriminate.
Qed.

Lemma severity_tables_total_witness : WARNING = WARNING.
Proof.
  apply (proj1 (proj2 (proj2 (severity_tables_total WARNING WARNING [] []))));
    reflexivity.
Defined.

End FormatterUse.

(* ================================================================== *)
(** * Further properties of the dispatch *)
(* ================================================================== *)

Section DispatchUse.

Variable env : Env.

(** X19.  [send_error_notification] never raises: whatever the endpoint
    does, it posts exactly one text, the formatted message, of at most 4097
    characters, and answers [True] exactly for a reply with status 200 and
    a true [ok]. *)
Theorem send_error_notification_total (self : TelegramService)
  (payload : ErrorPayload) (id : str) (w : World) :
  let text := _format_message self payload id in
  fst (send_error_notification env self payload id w)
  = inr (post_ok (httpx_post env (length (posted w)) text))
  /\ posted (snd (send_error_notification env self payload id w))
     = posted w ++ [text]
  /\ (Z.of_nat (length text) <= 4097)%Z
  /\ rate_limiter (snd (send_error_notification env self payload id w))
     = rate_limiter w.
Proof.
  cbv zeta. rewrite send_error_notification_eq. cbn [fst snd posted rate_limiter].
  repeat split. apply format_message_length.
Qed.

(** X20.  A report is answered with a response exactly when [is_allowed]
    lets it through and the endpoint replies 200 with a true [ok]; the
    response then carries the error id that was drawn. *)
Theorem receive_error_delivered_iff (payload : ErrorPayload) (w : World)
  (resp : WebhookResponse) :
  let key := rate_key payload in
  let now1 := time_time env (clock_reads w) in
  let id := token_hex env (ids_drawn w) in
  let text := _format_message (new_TelegramService (get_settings env))
                payload id in
  fst (receive_error env payload w) = inr resp
  <-> (fst (is_allowed now1 key (rate_limiter w)) = true
       /\ post_ok (httpx_post env (length (posted w)) text) = true
       /\ resp = mkWebhookResponse true
                   (lit "Error notification delivered successfully")
                   (Some id)).
Proof.
  cbv zeta.
  destruct (fst (is_allowed (time_time env (clock_reads w)) (rate_key payload)
                   (rate_limiter w))) eqn:Ha.
  - rewrite (receive_error_allowed env payload w Ha).
    destruct (post_ok _); cbn [fst]; split.
    + intros [= <-]. auto.
    + intros (_ & _ & ->). reflexivity.
    + discriminate.
    + intros (_ & H & _). discriminate.
  - rewrite (receive_error_denied env payload w Ha). cbn [fst]. split.
    + discriminate.
    + intros (H & _). discriminate.
Qed.

(** X21.  A report that is let through uses up its place in the window
    whether or not the delivery succeeds: after the handler the limiter
    holds the purged list of the key with the time of the call appended,
    one id has been drawn and one text posted, whatever the endpoint
    replied. *)
Theorem receive_error_consumes_quota (payload : ErrorPayload) (w : World) :
  let key := rate_key payload in
  let now1 := time_time env (clock_reads w) in
  let w' := snd (receive_error env payload w) in
  fst (is_allowed now1 key (rate_limiter w)) = true ->
  stored key (rate_limiter w')
  = purge (now1 - inject_Z (window_seconds (rate_limiter w)))
      (stored key (rate_limiter w)) ++ [now1]
  /\ ids_drawn w' = S (ids_drawn w)
  /\ length (posted w') = S (length (posted w)).
Proof.
  cbv zeta. intros Ha.
  rewrite (receive_error_allowed env payload w Ha).
  pose proof (is_allowed_stored (time_time env (clock_reads w))
                (rate_key payload) (rate_limiter w)) as Hs.
  rewrite is_allowed_fst in Ha. unfold key_step in Hs, Ha.
  destruct (_ <=? _)%Z; [discriminate |]. cbn [snd] in Hs.
  destruct (post_ok _); cbn [snd rate_limiter ids_drawn posted];
    rewrite length_app, Hs; cbn [length]; repeat split; lia.
Qed.

End DispatchUse.

Lemma receive_error_delivered_iff_witness :
  fst (receive_error (sample_env 1 (Response 200 (Json true)))
         (sample_payload (lit "boom") None None) fresh_world)
  = inr (mkWebhookResponse true
           (lit "Error notification delivered successfully")
           (Some sample_id)).
Proof.
  apply (proj2 (receive_error_delivered_iff
                  (sample_env 1 (Response 200 (Json true)))
                  (sample_payload (lit "boom") None None) fresh_world
                  (mkWebhookResponse true
                     (lit "Error notification delivered successfully")
                     (Some sample_id)))).
  vm_compute. repeat split; reflexivity.
Defined.

Lemma receive_error_consumes_quota_witness :
  let env := sample_env 1 TimeoutException in
  let payload := sample_payload (lit "boom") None None in
  let w' := snd (receive_error env payload fresh_world) in
  stored (lit "global") (rate_limiter w') = [] ++ [1%Q]
  /\ ids_drawn w' = 1%nat
  /\ length (posted w') = 1%nat.
Proof.
  apply (receive_error_consumes_quota (sample_env 1 TimeoutException)
           (sample_payload (lit "boom") None None) fresh_world).
  vm_compute. reflexivity.
Defined.

(* ================================================================== *)
(** * Properties of the secret check and of the health report *)
(* ================================================================== *)

Section SecurityFacts.

Lemma compare_digest_true a b :
  compare_digest a b = Some true <-> a = b /\ is_ascii a = true.
Proof.
  unfold compare_digest. split.
  - destruct (is_ascii a) eqn:Ea, (is_ascii b); simpl; try discriminate.
    intros [= H]. apply bool_decide_eq_true in H. auto.
  - intros [<- Ha]. rewrite Ha. simpl.
    rewrite bool_decide_eq_true_2 by reflexivity. reflexivity.
Qed.

(** X22.  [verify_webhook_secret] returns, and then returns the header
    value itself, exactly when the header is present, not empty, made of
    ASCII characters and equal to the configured secret; it answers 401
    exactly when the header is missing or empty.  An empty configured
    secret therefore lets nobody in. *)
Theorem verify_webhook_secret_accepts (secret : str) (api_key : option str)
  (k : str) :
  (verify_webhook_secret secret api_key = inr k
   <-> api_key = Some k /\ k <> [] /\ k = secret /\ is_ascii k = true)
  /\ ((exists d, verify_webhook_secret secret api_key
                 = inl (RaisedHTTP (mkHTTPException 401 d)))
      <-> api_key = None \/ api_key = Some [])
  /\ verify_webhook_secret [] api_key <> inr k.
Proof.
  assert (forall sec,
             verify_webhook_secret sec api_key = inr k
             <-> api_key = Some k /\ k <> [] /\ k = sec /\ is_ascii k = true)
    as Hacc.
  { intros sec. unfold verify_webhook_secret.
    destruct api_key as [[| c s] |].
    - split; [discriminate | intros (H & Hne & _); congruence].
    - destruct (compare_digest (c :: s) sec) as [[|] |] eqn:E.
      + apply compare_digest_true in E as [<- Ha]. split.
        * intros [= <-]. repeat split; auto; discriminate.
        * intros ([= <-] & _). reflexivity.
      + split; [discriminate |].
        intros ([= <-] & _ & <- & Ha).
        assert (compare_digest (c :: s) (c :: s) = Some true) as E'
          by (apply compare_digest_true; auto).
        congruence.
      + split; [discriminate |].
        intros ([= <-] & _ & <- & Ha).
        assert (compare_digest (c :: s) (c :: s) = Some true) as E'
          by (apply compare_digest_true; auto).
        congruence.
    - split; [discriminate | intros (H & _); discriminate]. }
  split; [apply Hacc | split].
  - unfold verify_webhook_secret. destruct api_key as [[| c s] |].
    + split; [auto | intros _; eexists; reflexivity].
    + split.
      * intros [d H]. destruct (compare_digest (c :: s) secret) as [[|] |];
          discriminate.
      * intros [H | H]; discriminate.
    + split; [auto | intros _; eexists; reflexivity].
  - intros H. apply Hacc in H as (_ & Hne & He & _). contradiction.
Qed.

Lemma verify_webhook_secret_accepts_witness :
  verify_webhook_secret (lit "s3cret") (Some (lit "s3cret"))
  = inr (lit "s3cret").
Proof.
  apply (proj1 (verify_webhook_secret_accepts (lit "s3cret")
                  (Some (lit "s3cret")) (lit "s3cret"))).
  repeat split; try reflexivity. discriminate.
Defined.

(** X23.  A request whose header is not the configured secret never
    reaches the handler: both routes end in the error of the check and
    leave the limiter, the id source and the log of posts as they were. *)
Theorem routes_reject_wrong_secret (env : Env) (secret : str)
  (api_key : option str) (payload : ErrorPayload) (w : World) :
  api_key <> Some secret ->
  exists r : Raised,
    verify_webhook_secret secret api_key = inl r
    /\ route_error env secret api_key payload w = (inl r, w)
    /\ route_test env secret api_key w = (inl r, w).
Proof.
  intros Hne. unfold route_error, route_test, depends_on_secret.
  destruct (verify_webhook_secret secret api_key) as [r | k] eqn:E.
  - exists r. auto.
  - exfalso. apply Hne.
    unfold verify_webhook_secret in E.
    destruct api_key as [[| c s] |]; try discriminate.
    destruct (compare_digest (c :: s) secret) as [[|] |] eqn:Ec;
      try discriminate.
    apply compare_digest_true in Ec as [<- _]. reflexivity.
Qed.

Lemma routes_reject_wrong_secret_witness :
  exists r : Raised,
    verify_webhook_secret (lit "s3cret") (Some (lit "guess")) = inl r
    /\ route_error (sample_env 1 (Response 200 (Json true))) (lit "s3cret")
         (Some (lit "guess")) (sample_payload (lit "boom") None None)
         fresh_world = (inl r, fresh_world)
    /\ route_test (sample_env 1 (Response 200 (Json true))) (lit "s3cret")
         (Some (lit "guess")) fresh_world = (inl r, fresh_world).
Proof.
  apply (routes_reject_wrong_secret
           (sample_env 1 (Response 200 (Json true))) (lit "s3cret")
           (Some (lit "guess")) (sample_payload (lit "boom") None None)
           fresh_world).
  discriminate.
Defined.

(** A header with a character outside ASCII makes the check end in
    a [TypeError], not in a 401 or a 403. *)
Theorem verify_webhook_secret_non_ascii (secret : str) (c : N) (s : str) :
  is_ascii (c :: s) = false ->
  verify_webhook_secret secret (Some (c :: s)) = inl RaisedTypeError.
Proof.
  intros H. unfold verify_webhook_secret, compare_digest. rewrite H.
  reflexivity.
Qed.

Lemma verify_webhook_secret_non_ascii_witness :
  verify_webhook_secret (lit "s3cret") (Some [233%N]) = inl RaisedTypeError.
Proof.
  apply (verify_webhook_secret_non_ascii (lit "s3cret") 233%N []).
  reflexivity.
Defined.

End SecurityFacts.

Section HealthFacts.

(** X24.  [verify_bot] answers a value exactly when [getMe] replies 200
    with a JSON object whose [result] member is there and not [null], and
    the value is that member; an exception, another status, a body that is
    no JSON object all give [None]. *)
Theorem verify_bot_result (r : Reply) (v : JsonValue) :
  verify_bot r = Some v
  <-> exists d,
        r = ReplyResponse 200 (Some (JDict d))
        /\ dict_lookup (lit "result") d = Some v /\ v <> JNull.
Proof.
  unfold verify_bot, py_get. split.
  - destruct r as [| code [[| | | | | d] |]]; try discriminate;
      destruct (Z.eqb_spec code 200) as [-> |]; try discriminate.
    destruct (dict_lookup (lit "result") d) as [[| b | q | s | l | d'] |]
      eqn:El; try discriminate; intros [= <-]; exists d;
      (split; [reflexivity | split; [exact El | discriminate]]).
  - intros (d & -> & Hl & Hv).
    change (200 =? 200)%Z with true. cbv beta iota. rewrite Hl.
    destruct v; try reflexivity. contradiction.
Qed.

(** X25.  The health report says ["healthy"] only when it also says
    connected, and exactly when [verify_bot] gave a dict that is not
    empty; it says connected exactly when [verify_bot] gave anything, so a
    [result] that is an empty dict, [0], [""], [[]] or [false] is reported
    as connected and ["degraded"].  A [result] that is true in Python and
    no dict makes the handler fail in [bot_info.get]. *)
Theorem health_check_report (name version : str) (r : Reply) :
  match health_check name version r with
  | Some rep =>
      (health_status rep = lit "healthy" -> telegram_connected rep = true)
      /\ (health_status rep = lit "healthy"
          <-> exists kv d, verify_bot r = Some (JDict (kv :: d)))
      /\ (telegram_connected rep = true <-> verify_bot r <> None)
      /\ (telegram_connected rep = true /\ health_status rep = lit "degraded"
          <-> exists v, verify_bot r = Some v /\ json_truthy v = false)
      /\ health_service rep = name /\ health_version rep = version
  | None =>
      exists v, verify_bot r = Some v /\ json_truthy v = true
                /\ forall d, v <> JDict d
  end.
Proof.
  unfold health_check.
  destruct (verify_bot r) as [[| [|] | q | [| c s] | [| x l] | [| kv d]] |];
    cbn [json_truthy];
    try (destruct (Qeq_bool q 0) eqn:Eq; cbn [negb]);
    cbn [health_status health_service health_version telegram_connected];
    repeat match goal with
      | |- _ /\ _ => split
      | |- _ <-> _ => split
      | |- _ -> _ => intro
      | H : exists _, _ |- _ => destruct H
      | H : _ /\ _ |- _ => destruct H
      | H : Some _ = Some _ |- _ => injection H as <-
      end;
    cbn [json_truthy] in *; rewrite ?Eq in *; cbn [negb] in *;
    try discriminate; try congruence; try reflexivity;
    try (do 2 eexists; reflexivity);
    try (eexists; split; [reflexivity |]; cbn [json_truthy]; rewrite ?Eq;
         first [reflexivity | split; [reflexivity | discriminate]]).
Qed.

Lemma verify_bot_result_witness :
  verify_bot
    (ReplyResponse 200
       (Some (JDict [(lit "ok", JBool true);
                     (lit "result",
                      JDict [(lit "username", JStr (lit "jahiz_bot"))])])))
  = Some (JDict [(lit "username", JStr (lit "jahiz_bot"))]).
Proof.
  apply (proj2 (verify_bot_result
                  (ReplyResponse 200
                     (Some (JDict [(lit "ok", JBool true);
                                   (lit "result",
                                    JDict [(lit "username",
                                            JStr (lit "jahiz_bot"))])])))
                  (JDict [(lit "username", JStr (lit "jahiz_bot"))]))).
  eexists. split; [reflexivity | split; [vm_compute; reflexivity | discriminate]].
Defined.

Lemma health_check_report_witness :
  exists rep,
    health_check (lit "Jahiz Error Tracker") (lit "1.0.0")
      (ReplyResponse 200
         (Some (JDict [(lit "ok", JBool true); (lit "result", JDict [])])))
    = Some rep
    /\ telegram_connected rep = true
    /\ health_status rep = lit "degraded".
Proof.
  pose proof (health_check_report (lit "Jahiz Error Tracker") (lit "1.0.0")
                (ReplyResponse 200
                   (Some (JDict [(lit "ok", JBool true);
                                 (lit "result", JDict [])])))) as H.
  destruct (health_check _ _ _) as [rep |] eqn:E.
  - exists rep. split; [reflexivity |].
    apply (proj2 (proj1 (proj2 (proj2 (proj2 H))))).
    exists (JDict []). split; vm_compute; reflexivity.
  - vm_compute in E. discriminate E.
Defined.

End HealthFacts.

(* ================================================================== *)
(** * Properties of the client *)
(* ================================================================== *)

Section ClientFacts.

Implicit Types (d : list (str * JsonValue)) (key k : str) (v : JsonValue).

(** ** [rstrip] *)

Lemma rstrip_decompose c (s : str) : exists n, s = rstrip c s ++ repeat c n.
Proof.
  induction s as [| x t [n IH]]; [exists 0%nat; reflexivity |].
  cbn [rstrip]. destruct (rstrip c t) as [| y r] eqn:E.
  - destruct (N.eqb_spec x c) as [-> | Hne].
    + exists (S n). cbn [app repeat]. f_equal. exact IH.
    + exists n. cbn [app]. f_equal. exact IH.
  - exists n. cbn [app]. f_equal. exact IH.
Qed.

Lemma rstrip_not_trailing c (s pre : str) : rstrip c s <> pre ++ [c].
Proof.
  revert pre. induction s as [| x t IH]; intros pre; cbn [rstrip].
  - destruct pre; discriminate.
  - destruct (rstrip c t) as [| y r] eqn:E.
    + destruct (N.eqb_spec x c) as [-> | Hne].
      * destruct pre; discriminate.
      * intros H. destruct pre as [| p pre]; cbn in H.
        -- injection H as H. congruence.
        -- injection H as _ H. destruct pre; discriminate.
    + intros H. destruct pre as [| p pre]; cbn in H.
      * discriminate.
      * injection H as _ H. apply (IH pre). exact H.
Qed.

Lemma rstrip_idem c (s : str) : rstrip c (rstrip c s) = rstrip c s.
Proof.
  induction s as [| x t IH]; [reflexivity |].
  cbn [rstrip]. destruct (rstrip c t) as [| y r] eqn:E.
  - destruct (N.eqb_spec x c) as [-> | Hne]; [reflexivity |].
    cbn [rstrip]. destruct (N.eqb_spec x c); [contradiction | reflexivity].
  - change (rstrip c (x :: y :: r))
      with (match rstrip c (y :: r) with
            | [] => if (x =? c)%N then [] else [x]
            | r' => x :: r'
            end).
    rewrite IH. reflexivity.
Qed.

(** X26.  The client keeps its webhook URL without any trailing slash:
    the URL it stores is the one given minus the slashes at its end, it
    does not end in a slash, and stripping it again changes nothing. *)
Theorem client_url_stripped (url secret : str)
  (app version environment service : option str) (timeout : Q)
  (collect : bool) :
  let stored_url :=
    Client.webhook_url
      (Client.new_JahizClient url secret app version environment service
         timeout collect) in
  (exists n, url = stored_url ++ repeat 47%N n)
  /\ (forall pre, stored_url <> pre ++ [47%N])
  /\ rstrip 47 stored_url = stored_url.
Proof.
  cbv zeta. cbn [Client.webhook_url Client.new_JahizClient].
  split; [apply rstrip_decompose | split].
  - intros pre. apply rstrip_not_trailing.
  - apply rstrip_idem.
Qed.

(** ** Dicts *)

Lemma dict_lookup_set_eq key v d : dict_lookup key (dict_set key v d) = Some v.
Proof.
  induction d as [| [k' v'] rest IH]; cbn [dict_set dict_lookup].
  - rewrite bool_decide_eq_true_2 by reflexivity. reflexivity.
  - destruct (bool_decide (k' = key)) eqn:E; cbn [dict_lookup]; rewrite E;
      [reflexivity | exact IH].
Qed.

Lemma dict_lookup_set_ne k key v d :
  k <> key -> dict_lookup k (dict_set key v d) = dict_lookup k d.
Proof.
  intros Hne. induction d as [| [k' v'] rest IH]; cbn [dict_set dict_lookup].
  - rewrite bool_decide_eq_false_2 by congruence. reflexivity.
  - destruct (bool_decide (k' = key)) eqn:E; cbn [dict_lookup].
    + apply bool_decide_eq_true in E. subst k'.
      rewrite !bool_decide_eq_false_2 by congruence. reflexivity.
    + rewrite IH. reflexivity.
Qed.

Lemma dict_keys_set_In x key v d :
  In x (dict_keys (dict_set key v d)) -> x = key \/ In x (dict_keys d).
Proof.
  induction d as [| [k' v'] rest IH]; cbn [dict_set dict_keys List.map fst In].
  - intros [<- | []]. auto.
  - destruct (bool_decide (k' = key)); cbn [List.map fst In].
    + intros [<- | H]; auto.
    + intros [<- | H]; [auto |]. destruct (IH H); auto.
Qed.

Lemma dict_keys_set_Forall (P : str -> Prop) key v d :
  P key -> Forall P (dict_keys d) -> Forall P (dict_keys (dict_set key v d)).
Proof.
  intros Hk Hd. apply List.Forall_forall. intros x Hx.
  apply dict_keys_set_In in Hx as [-> | Hx]; [exact Hk |].
  exact (proj1 (List.Forall_forall P (dict_keys d)) Hd x Hx).
Qed.

Lemma dict_keys_set_NoDup key v d :
  NoDup (dict_keys d) -> NoDup (dict_keys (dict_set key v d)).
Proof.
  induction d as [| [k' v'] rest IH]; cbn [dict_set dict_keys List.map fst];
    intros H.
  - apply NoDup_singleton.
  - destruct (bool_decide (k' = key)) eqn:E; cbn [List.map fst];
      [exact H |].
    apply bool_decide_eq_false in E.
    apply NoDup_cons in H as [Hnin Hnd].
    apply NoDup_cons. split; [| apply IH; exact Hnd].
    intros Hin. apply list_elem_of_In in Hin.
    apply dict_keys_set_In in Hin as [-> | Hin]; [congruence |].
    apply Hnin. apply list_elem_of_In. exact Hin.
Qed.

Lemma tidy_set fields key v d :
  key ∈ fields -> tidy fields d -> tidy fields (dict_set key v d).
Proof.
  intros Hk [H1 H2]. split;
    [apply dict_keys_set_Forall; assumption | apply dict_keys_set_NoDup; exact H2].
Qed.

Lemma tidy_put_str fields (key : string) o d :
  lit key ∈ fields -> tidy fields d -> tidy fields (Client.put_str key o d).
Proof.
  intros Hk H. unfold Client.put_str.
  destruct o as [[| c s] |]; [exact H | apply tidy_set; assumption | exact H].
Qed.

Lemma tidy_put_int fields (key : string) o d :
  lit key ∈ fields -> tidy fields d -> tidy fields (Client.put_int key o d).
Proof.
  intros Hk H. unfold Client.put_int.
  destruct o; [apply tidy_set; assumption | exact H].
Qed.

Lemma tidy_nil fields : tidy fields [].
Proof. split; constructor. Qed.

Ltac decided := apply (bool_decide_unpack _); vm_compute; exact I.

Ltac in_fields := decided.

Ltac tidy_step :=
  match goal with
  | |- tidy _ (Client.put_str _ _ _) => apply tidy_put_str; [in_fields |]
  | |- tidy _ (Client.put_int _ _ _) => apply tidy_put_int; [in_fields |]
  | |- tidy _ (dict_set _ _ _) => apply tidy_set; [in_fields |]
  | |- tidy _ [] => apply tidy_nil
  | |- tidy _ (match ?x with _ => _ end) => destruct x
  end.

Lemma tidy_user a : tidy UserInfo_fields (Client.report_error_user a).
Proof. unfold Client.report_error_user. cbv zeta. repeat tidy_step. Qed.

Lemma tidy_ctx a :
  Client.context a = None ->
  tidy ErrorContext_fields (Client.report_error_ctx a).
Proof.
  intros H. unfold Client.report_error_ctx. cbv zeta. rewrite H.
  repeat tidy_step.
Qed.

Lemma tidy_device m info :
  Client._collect_device_info m = Some info -> tidy DeviceInfo_fields info.
Proof.
  unfold Client._collect_device_info. cbv zeta.
  destruct (Client.psutil_installed m); [| discriminate].
  cbn [negb]. intros [= <-].
  repeat tidy_step;
    (split; decided).
Qed.

(** X27.  Every member the client sends is a field of the server's model
    and is sent once: the members of the payload are fields of
    [ErrorPayload], those of its [user] are fields of [UserInfo], those of
    its [device] are fields of [DeviceInfo], and with no [context]
    argument those of its [context] are fields of [ErrorContext]. *)
Theorem client_payload_fields (self : Client.JahizClient)
  (m : Client.Machine) (a : Client.Args) (payload : list (str * JsonValue)) :
  Client.report_error_payload self m a = Some payload ->
  tidy ErrorPayload_fields payload
  /\ tidy UserInfo_fields (Client.report_error_user a)
  /\ (forall info, Client._collect_device_info m = Some info ->
                   tidy DeviceInfo_fields info)
  /\ (Client.context a = None ->
      tidy ErrorContext_fields (Client.report_error_ctx a)).
Proof.
  intros H.
  split; [| split; [apply tidy_user | split; [apply tidy_device | apply tidy_ctx]]].
  unfold Client.report_error_payload in H. cbv zeta in H.
  destruct (Client.collect_device_info self);
    [destruct (Client._collect_device_info m); [| discriminate] |];
    injection H as <-;
    repeat tidy_step;
    (split; decided).
Qed.

Lemma client_payload_fields_witness :
  let self := Client.new_JahizClient (lit "http://h/webhook/error/")
                (lit "s3cret") (Some (lit "app")) None None None 10%Q false in
  let m := Client.mkMachine (lit "host") (lit "Linux") (lit "6.1")
             (lit "x86_64") true (Some 1%Q) None None None (lit "2024-01-02") in
  let a := Client.mkArgs (lit "boom") (lit "error") None None None None
             (Some 0%Z) None None None (Some (lit "u1")) None None None None
             None None None (Some (lit "http://u")) None None in
  tidy ErrorPayload_fields
    [(lit "error_message", JStr (lit "boom"));
     (lit "severity", JStr (lit "error"));
     (lit "timestamp", JStr (lit "2024-01-02"));
     (lit "line_number", JNum (inject_Z 0));
     (lit "app_name", JStr (lit "app"));
     (lit "context", JDict [(lit "request_url", JStr (lit "http://u"))]);
     (lit "user", JDict [(lit "user_id", JStr (lit "u1"))])].
Proof.
  apply (proj1 (client_payload_fields
                  (Client.new_JahizClient (lit "http://h/webhook/error/")
                     (lit "s3cret") (Some (lit "app")) None None None 10%Q false)
                  (Client.mkMachine (lit "host") (lit "Linux") (lit "6.1")
                     (lit "x86_64") true (Some 1%Q) None None None
                     (lit "2024-01-02"))
                  (Client.mkArgs (lit "boom") (lit "error") None None None None
                     (Some 0%Z) None None None (Some (lit "u1")) None None None
                     None None None None (Some (lit "http://u")) None None)
                  _ ltac:(vm_compute; reflexivity))).
Defined.

(** ** What [context] does to the request fields *)

Lemma dict_lookup_None k d : k ∉ dict_keys d -> dict_lookup k d = None.
Proof.
  induction d as [| [k' v'] rest IH]; cbn [dict_keys List.map fst dict_lookup];
    intros H; [reflexivity |].
  apply not_elem_of_cons in H as [Hne Hnin].
  rewrite bool_decide_eq_false_2 by congruence. apply IH. exact Hnin.
Qed.

Lemma dict_lookup_update k (c : list (str * JsonValue)) :
  NoDup (dict_keys c) ->
  forall d,
    dict_lookup k (dict_update d c)
    = match dict_lookup k c with
      | Some v => Some v
      | None => dict_lookup k d
      end.
Proof.
  unfold dict_update.
  induction c as [| [k' v'] rest IH];
    cbn [dict_keys List.map fst fold_left dict_lookup snd];
    intros Hnd d; [reflexivity |].
  apply NoDup_cons in Hnd as [Hnin Hnd].
  rewrite (IH Hnd).
  destruct (bool_decide (k' = k)) eqn:E.
  - apply bool_decide_eq_true in E. subst k'.
    rewrite (dict_lookup_None k rest Hnin). apply dict_lookup_set_eq.
  - apply bool_decide_eq_false in E.
    rewrite dict_lookup_set_ne by congruence. reflexivity.
Qed.

(** X28.  The members of a non-empty [context] argument win over the
    [request_url], [request_method] and [response_status] arguments: a
    member of the request context the client sends has the value the
    [context] argument gives it, whatever that value is, and the value
    built from the three arguments only when [context] has no such
    member. *)
Theorem client_context_overrides (a : Client.Args)
  (kv : str * JsonValue) (c : list (str * JsonValue)) (k : str) :
  Client.context a = Some (kv :: c) ->
  NoDup (dict_keys (kv :: c)) ->
  dict_lookup k (Client.report_error_ctx a)
  = match dict_lookup k (kv :: c) with
    | Some v => Some v
    | None =>
        dict_lookup k
          (Client.put_int "response_status" (Client.response_status a)
             (Client.put_str "request_method" (Client.request_method a)
                (Client.put_str "request_url" (Client.request_url a) [])))
    end.
Proof.
  intros Hc Hnd. unfold Client.report_error_ctx. cbv zeta. rewrite Hc.
  apply dict_lookup_update. exact Hnd.
Qed.

Lemma client_context_overrides_witness :
  dict_lookup (lit "request_url")
    (Client.report_error_ctx
       (Client.mkArgs (lit "boom") (lit "error") None None None None None None
          None None None None None None None None None
          (Some [(lit "request_url", JNull)])
          (Some (lit "http://u")) None None))
  = Some JNull.
Proof.
  apply (client_context_overrides
           (Client.mkArgs (lit "boom") (lit "error") None None None None None
              None None None None None None None None None None
              (Some [(lit "request_url", JNull)])
              (Some (lit "http://u")) None None)
           (lit "request_url", JNull) [] (lit "request_url") eq_refl).
  decided.
Defined.

(** ** The members of the payload *)

Lemma lookup_put_str_eq (key : string) o d :
  dict_lookup (lit key) (Client.put_str key o d)
  = match o with
    | Some (c :: s) => Some (JStr (c :: s))
    | _ => dict_lookup (lit key) d
    end.
Proof.
  unfold Client.put_str. destruct o as [[| c s] |]; try reflexivity.
  apply dict_lookup_set_eq.
Qed.

Lemma lookup_put_str_ne k (key : string) o d :
  k <> lit key -> dict_lookup k (Client.put_str key o d) = dict_lookup k d.
Proof.
  intros H. unfold Client.put_str. destruct o as [[| c s] |]; try reflexivity.
  apply dict_lookup_set_ne. exact H.
Qed.

Lemma lookup_put_int_eq (key : string) o d :
  dict_lookup (lit key) (Client.put_int key o d)
  = match o with
    | Some n => Some (JNum (inject_Z n))
    | None => dict_lookup (lit key) d
    end.
Proof.
  unfold Client.put_int. destruct o; [apply dict_lookup_set_eq | reflexivity].
Qed.

Lemma lookup_put_int_ne k (key : string) o d :
  k <> lit key -> dict_lookup k (Client.put_int key o d) = dict_lookup k d.
Proof.
  intros H. unfold Client.put_int. destruct o; [| reflexivity].
  apply dict_lookup_set_ne. exact H.
Qed.

Ltac key_ne := let H := fresh in intros H; vm_compute in H; discriminate H.

Ltac look :=
  repeat first
    [ rewrite lookup_put_str_eq
    | rewrite lookup_put_int_eq
    | rewrite lookup_put_str_ne by key_ne
    | rewrite lookup_put_int_ne by key_ne
    | rewrite dict_lookup_set_ne by key_ne ].

(** X29.  The payload always has the message, the severity and the
    timestamp; a line number is sent whenever it is given, also when it is
    0; a stack trace, like every optional text, is sent only when it is
    given and not empty. *)
Theorem client_payload_members (self : Client.JahizClient)
  (m : Client.Machine) (a : Client.Args) (payload : list (str * JsonValue)) :
  Client.report_error_payload self m a = Some payload ->
  dict_lookup (lit "error_message") payload = Some (JStr (Client.message a))
  /\ dict_lookup (lit "severity") payload = Some (JStr (Client.severity a))
  /\ dict_lookup (lit "timestamp") payload
     = Some (JStr (Client.utcnow_isoformat m))
  /\ dict_lookup (lit "line_number") payload
     = option_map (fun n => JNum (inject_Z n)) (Client.line_number a)
  /\ dict_lookup (lit "stacktrace") payload
     = match Client.stacktrace a with
       | Some (c :: s) => Some (JStr (c :: s))
       | _ => None
       end.
Proof.
  intros H. unfold Client.report_error_payload in H. cbv zeta in H.
  destruct (Client.collect_device_info self);
    [destruct (Client._collect_device_info m); [| discriminate] |];
    injection H as <-;
    destruct (Client.metadata a) as [[| kv1 md] |];
    destruct (Client.tags a) as [[| kv2 tg] |];
    destruct (Client.report_error_user a) as [| kv3 us];
    destruct (Client.report_error_ctx a) as [| kv4 cx];
    (split; [| split; [| split; [| split]]]); look;
    try reflexivity;
    try (destruct (Client.line_number a); reflexivity);
    try (destruct (Client.stacktrace a) as [[| c s] |]; reflexivity).
Qed.

Lemma client_payload_members_witness :
  dict_lookup (lit "line_number")
    [(lit "error_message", JStr (lit "boom"));
     (lit "severity", JStr (lit "error"));
     (lit "timestamp", JStr (lit "2024-01-02"));
     (lit "line_number", JNum (inject_Z 0))]
  = option_map (fun n => JNum (inject_Z n)) (Some 0%Z).
Proof.
  apply (proj1 (proj2 (proj2 (proj2
           (client_payload_members
              (Client.new_JahizClient (lit "http://h/") (lit "s3cret") None
                 None None None 10%Q false)
              (Client.mkMachine (lit "host") (lit "Linux") (lit "6.1")
                 (lit "x86_64") true None None None None (lit "2024-01-02"))
              (Client.mkArgs (lit "boom") (lit "error") None None (Some [])
                 None (Some 0%Z) None None None None None None None None None
                 None None None None None)
              _ ltac:(vm_compute; reflexivity)))))).
Defined.

End ClientFacts.

(* ================================================================== *)
(** * The formatter against the template *)
(* ================================================================== *)

Section TemplateFacts.

Implicit Types (self : TelegramService) (payload : ErrorPayload)
  (id s sep : str) (ps : list piece).

Lemma render_line_app ps ps' :
  render_line (ps ++ ps') = render_line ps ++ render_line ps'.
Proof. apply flat_map_app. Qed.

Lemma render_join (sep : piece) (lines : list (list piece)) :
  render_line (join_pieces sep lines)
  = join (render_piece sep) (List.map render_line lines).
Proof.
  induction lines as [| x rest IH]; [reflexivity |].
  destruct rest as [| y rest]; [reflexivity |].
  change (join_pieces sep (x :: y :: rest))
    with (x ++ sep :: join_pieces sep (y :: rest)).
  rewrite render_line_app.
  change (render_line (sep :: join_pieces sep (y :: rest)))
    with (render_piece sep ++ render_line (join_pieces sep (y :: rest))).
  rewrite IH. reflexivity.
Qed.

Lemma escape_join sep (parts : list str) :
  plainb sep = true ->
  _escape (join sep parts) = join sep (List.map _escape parts).
Proof.
  intros Hsep. induction parts as [| x rest IH]; [reflexivity |].
  destruct rest as [| y rest]; [reflexivity |].
  change (join sep (x :: y :: rest)) with (x ++ sep ++ join sep (y :: rest)).
  rewrite !escape_app, IH, (escape_plain sep Hsep). reflexivity.
Qed.

Lemma map_line_if (o : option str) (f : str -> list piece) :
  List.map render_line (line_if o f) = when_str o (fun s => render_line (f s)).
Proof. destruct o as [[| c s] |]; reflexivity. Qed.

Lemma map_line_some {A} (o : option A) (f : A -> list piece) :
  List.map render_line (line_some o f)
  = when_some o (fun a => render_line (f a)).
Proof. destruct o; reflexivity. Qed.

Lemma map_when_str (g : str -> str) (o : option str) (f : str -> str) :
  List.map g (when_str o f) = when_str o (fun s => g (f s)).
Proof. destruct o as [[| c s] |]; reflexivity. Qed.

Lemma map_when_some {A} (g : str -> str) (o : option A) (f : A -> str) :
  List.map g (when_some o f) = when_some o (fun a => g (f a)).
Proof. destruct o; reflexivity. Qed.

Lemma when_str_ext (o : option str) (f g : str -> str) :
  (forall s, f s = g s) -> when_str o f = when_str o g.
Proof. intros H. destruct o as [[| c s] |]; simpl; rewrite ?H; reflexivity. Qed.

Lemma when_some_ext {A} (o : option A) (f g : A -> str) :
  (forall a, f a = g a) -> when_some o f = when_some o g.
Proof. intros H. destruct o; simpl; rewrite ?H; reflexivity. Qed.

Lemma map_titled (title : str) (lines : list (list piece)) :
  List.map render_line (titled title lines)
  = titled_block title (List.map render_line lines).
Proof.
  destruct lines as [| x lines]; [reflexivity |].
  unfold titled, titled_block. rewrite !List.map_app.
  cbn [List.map render_line flat_map render_piece].
  rewrite app_nil_r. reflexivity.
Qed.

(** One rendered line against the text the formatter builds. *)
Ltac tpl_line :=
  intros; cbv zeta;
  unfold render_line; rewrite ?flat_map_app; cbn [flat_map render_piece];
  rewrite <- ?escape_flat_map, ?escape_app;
  repeat match goal with
    | |- context [_escape nl] => rewrite (escape_plain nl) by reflexivity
    | |- context [_escape (lit ?x)] =>
        rewrite (escape_plain (lit x)) by reflexivity
    | |- context [_escape (str_of_Z ?n)] =>
        rewrite (escape_plain (str_of_Z n)) by apply str_of_Z_plain
    | |- context [_escape (nl ++ lit ?x)] =>
        rewrite (escape_plain (nl ++ lit x)) by reflexivity
    end;
  rewrite ?app_nil_r, <- ?app_assoc; reflexivity.

(** A block of optional lines against the block the formatter builds. *)
Ltac tpl_block :=
  rewrite ?List.map_app, ?map_line_if, ?map_line_some, ?map_when_str,
    ?map_when_some;
  repeat match goal with
    | |- _ ++ _ = _ ++ _ => f_equal
    end;
  try (apply when_str_ext; tpl_line);
  try (apply when_some_ext; tpl_line).

Lemma template_header_eq payload id :
  render_line (template_header payload id) = header_line payload id.
Proof. unfold template_header, header_line. tpl_line. Qed.

Lemma template_type_code_eq payload :
  List.map render_line (template_type_code payload) = type_code_lines payload.
Proof. unfold template_type_code, type_code_lines. tpl_block. Qed.

Lemma template_location_parts_eq payload :
  List.map render_line (template_location_parts payload)
  = List.map _escape (location_parts payload).
Proof. unfold template_location_parts, location_parts. tpl_block. Qed.

Lemma template_location_eq payload :
  List.map render_line (template_location payload) = location_lines payload.
Proof.
  unfold template_location, location_lines.
  pose proof (template_location_parts_eq payload) as H.
  destruct (template_location_parts payload) as [| x ps],
    (location_parts payload) as [| y parts]; try discriminate;
    [reflexivity |].
  cbn [List.map]. f_equal.
  rewrite !render_line_app, render_join, H.
  rewrite <- (escape_join (lit " | ")) by reflexivity.
  cbn [render_line flat_map render_piece]. rewrite app_nil_r. reflexivity.
Qed.

Lemma template_app_eq payload :
  List.map render_line (template_app payload) = app_lines payload.
Proof. unfold template_app, app_lines. tpl_block. Qed.

Lemma template_ctx_eq ctx :
  List.map render_line (template_ctx ctx) = ctx_lines ctx.
Proof.
  unfold template_ctx, ctx_lines. rewrite !List.map_app.
  f_equal; [| f_equal].
  - destruct (truthy (request_method ctx) && truthy (request_url ctx)).
    + cbn [List.map]. f_equal. tpl_line.
    + tpl_block.
  - tpl_block.
  - destruct (query_params ctx) as [[| kv items] |]; try reflexivity.
    cbv beta iota zeta. generalize (kv :: items). intros L.
    cbn [List.map]. f_equal.
    rewrite render_line_app, render_join.
    rewrite (escape_join (lit ", ")) by reflexivity.
    rewrite !List.map_map.
    cbn [render_line flat_map render_piece]. rewrite app_nil_r.
    f_equal. f_equal. apply List.map_ext. tpl_line.
Qed.

Lemma template_user_eq u :
  List.map render_line (template_user u) = user_lines u.
Proof. unfold template_user, user_lines. tpl_block. Qed.

Lemma template_resources_eq d :
  List.map render_line (template_resources d) = resource_parts d.
Proof. unfold template_resources, resource_parts. tpl_block. Qed.

Lemma template_device_eq d :
  List.map render_line (template_device d) = dev_lines d.
Proof.
  unfold template_device, dev_lines. rewrite !List.map_app.
  repeat match goal with |- _ ++ _ = _ ++ _ => f_equal end;
    try (rewrite map_line_if; apply when_str_ext; tpl_line).
  - rewrite map_line_if. apply when_str_ext. intros s.
    destruct (truthy (os_version d)); unfold render_line;
      rewrite flat_map_app; tpl_line.
  - pose proof (template_resources_eq d) as H.
    destruct (template_resources d) as [| x rs],
      (resource_parts d) as [| y parts]; try discriminate; [reflexivity |].
    cbn [List.map]. f_equal.
    rewrite render_line_app, render_join, H. reflexivity.
Qed.

Lemma template_tags_eq payload :
  List.map render_line (template_tags payload) = tags_lines payload.
Proof.
  unfold template_tags, tags_lines.
  destruct (tags payload) as [[| kv items] |]; try reflexivity.
  cbv beta iota zeta. generalize (kv :: items). intros L.
  cbn [List.map]. f_equal.
  rewrite render_line_app, render_join, List.map_map.
  cbn [render_line flat_map render_piece]. rewrite app_nil_r.
  f_equal. f_equal. apply List.map_ext. tpl_line.
Qed.

Lemma meta_str_full_template (items : list (str * Any)) :
  meta_str_full items = render_line (template_metadata_entries items).
Proof.
  unfold meta_str_full, template_metadata_entries.
  rewrite render_join, List.map_map.
  cbn [render_piece]. f_equal. apply List.map_ext. symmetry. tpl_line.
Qed.

Lemma rendered_metadata_eq self payload :
  metadata_lines self payload = rendered_metadata self payload.
Proof.
  unfold metadata_lines, rendered_metadata, meta_str.
  destruct (metadata payload) as [[| kv items] |]; try reflexivity.
  cbv beta iota zeta. rewrite meta_str_full_template. reflexivity.
Qed.

Lemma template_metadata_eq self payload :
  metadata_uncut self payload ->
  rendered_metadata self payload
  = List.map render_line (template_metadata payload).
Proof.
  rewrite <- rendered_metadata_eq.
  unfold metadata_uncut, template_metadata, metadata_lines.
  destruct (metadata payload) as [[| kv items] |]; try reflexivity.
  intros H. unfold meta_str.
  destruct (Z.ltb_spec (max_metadata self)
              (Z.of_nat (length (meta_str_full (kv :: items))))); [lia |].
  rewrite meta_str_full_template.
  cbv beta iota zeta. generalize (kv :: items). intros L.
  cbn [List.map]. f_equal. f_equal.
  rewrite !render_line_app.
  cbn [render_line flat_map render_piece]. rewrite app_nil_r. reflexivity.
Qed.

Lemma template_stacktrace_eq self payload :
  List.map render_line (template_stacktrace self payload)
  = stacktrace_lines self payload.
Proof.
  unfold template_stacktrace, stacktrace_lines, trace_cut.
  destruct (stacktrace payload) as [[| c trace] |]; try reflexivity.
  cbv beta iota zeta. generalize (c :: trace). intros t.
  cbn [List.map]. f_equal. f_equal.
  destruct (max_stacktrace self <? Z.of_nat (length t))%Z; tpl_line.
Qed.

Lemma template_footer_eq payload :
  List.map render_line (template_footer payload)
  = [timestamp_line payload] ++ fingerprint_lines payload.
Proof.
  unfold template_footer, timestamp_line, fingerprint_lines.
  rewrite List.map_app. f_equal. tpl_block.
Qed.

Lemma message_parts_template self payload id :
  message_parts self payload id
  = List.map render_line (template_before payload id)
      ++ rendered_metadata self payload
      ++ List.map render_line (template_after self payload).
Proof.
  rewrite <- rendered_metadata_eq.
  unfold message_parts, template_before, template_after.
  rewrite !List.map_app, !map_titled.
  rewrite template_type_code_eq, template_location_eq, template_app_eq,
    template_tags_eq, template_stacktrace_eq, template_footer_eq.
  cbn [List.map]. rewrite template_header_eq.
  replace (render_line [Lit (lit "<b>Message:</b> ");
                        Field (error_message payload)])
    with (message_line payload) by (unfold message_line; symmetry; tpl_line).
  change (render_line []) with (@nil N).
  destruct (context payload) as [c |], (user payload) as [u |],
    (device payload) as [d |];
    rewrite ?map_titled, ?template_ctx_eq, ?template_user_eq,
      ?template_device_eq;
    rewrite <- ?app_assoc; reflexivity.
Qed.



End TemplateFacts.
